(** * A shallow embedding of rust-hl7: the HL7 v2 parser of [src/lib.rs]
    and the MLLP codec and acknowledgment builder of [src/mllp.rs].

    Rust [&str] and [String] values are modelled by their UTF-8 bytes as
    Stdlib [string]s (lists of 8-bit [ascii] characters): every delimiter
    the code splits on is an ASCII character, so splitting the bytes and
    splitting the characters give the same pieces.  [BytesMut] buffers are
    lists of [Byte.byte].  A Rust panic is an explicit [Panic] outcome. *)

From Stdlib Require Import List Bool Arith Lia NArith String Ascii.
From Stdlib Require Strings.Byte.
From Stdlib Require Import Numbers.DecimalString.
Import ListNotations.

(** Outcome of a Rust function returning [Result<A, E>] that may also
    panic (an out-of-bounds index, an underflowing subtraction, ...). *)
Inductive outcome (A E : Type) : Type :=
| Ok (x : A)
| Err (e : E)
| Panic.
Arguments Ok {A E} x.
Arguments Err {A E} e.
Arguments Panic {A E}.

(** ** String primitives of Rust's [str] used by the source *)
Module Str.
Local Open Scope string_scope.

Definition CR : ascii := "013"%char.
Definition LF : ascii := "010"%char.
Definition CRLF : string := String CR (String LF EmptyString).

(** Prepend a character to the first piece of a split. *)
Definition push_char (a : ascii) (pieces : list string) : list string :=
  match pieces with
  | r :: rs => String a r :: rs
  | [] => [String a EmptyString]
  end.

(** [s.split(c)] for a [char] pattern: always at least one piece. *)
Fixpoint split_char (c : ascii) (s : string) : list string :=
  match s with
  | EmptyString => [EmptyString]
  | String a s' =>
      if Ascii.eqb a c then EmptyString :: split_char c s'
      else push_char a (split_char c s')
  end.

(** [s.split("\r\n")]: leftmost, non-overlapping matches of CR LF. *)
Fixpoint split_crlf (s : string) : list string :=
  match s with
  | EmptyString => [EmptyString]
  | String a s' =>
      match s' with
      | String b s'' =>
          if Ascii.eqb a CR && Ascii.eqb b LF then EmptyString :: split_crlf s''
          else push_char a (split_crlf s')
      | EmptyString => push_char a (split_crlf s')
      end
  end.

(** [s.contains(c)] for a [char] pattern. *)
Fixpoint contains_char (c : ascii) (s : string) : bool :=
  match s with
  | EmptyString => false
  | String a s' => Ascii.eqb a c || contains_char c s'
  end.

(** [s.contains(pat)] for a [&str] pattern. *)
Fixpoint contains_str (pat s : string) : bool :=
  String.prefix pat s ||
  match s with
  | EmptyString => false
  | String _ s' => contains_str pat s'
  end.

(** [s.starts_with(pat)]. *)
Definition starts_with (s pat : string) : bool := String.prefix pat s.

(** [format!("{}", n)] for an unsigned integer. *)
Definition string_of_nat (n : nat) : string :=
  NilEmpty.string_of_uint (Nat.to_uint n).

End Str.

(** ** The HL7 message model and parser ([src/lib.rs]) *)
Module Hl7.
Local Open Scope string_scope.
Import Str.

Inductive HL7Error : Type :=
| ParseError (msg : string)
| InvalidStructure (msg : string)
| MissingField (msg : string).

Record Delimiters : Type := {
  field : ascii;
  component : ascii;
  subcomponent : ascii;
  repetition : ascii;
  escape : ascii
}.

Definition default_delimiters : Delimiters := {|
  field := "|"%char;
  component := "^"%char;
  subcomponent := "&"%char;
  repetition := "~"%char;
  escape := "\"%char
|}.

Record Component : Type := { value : string; subcomponents : list string }.
Record Field : Type := { components : list Component }.
Record Segment : Type := { name : string; fields : list Field }.
Record Message : Type := {
  segments : list Segment;
  message_type : string;
  version : string
}.

(** [iter().map(f).collect::<Result<Vec<_>, _>>()]: the first error wins. *)
Fixpoint collect_results {A E : Type} (rs : list (outcome A E)) : outcome (list A) E :=
  match rs with
  | [] => Ok []
  | r :: rs' =>
      match r with
      | Ok x =>
          match collect_results rs' with
          | Ok xs => Ok (x :: xs)
          | Err e => Err e
          | Panic => Panic
          end
      | Err e => Err e
      | Panic => Panic
      end
  end.

(** [parse_component] *)
Definition parse_component (input : string) (d : Delimiters) : Component :=
  {| value := input;
     subcomponents :=
       if contains_char (subcomponent d) input
       then split_char (subcomponent d) input
       else [] |}.

(** [parse_field] *)
Definition parse_field (input : string) (d : Delimiters) : Field :=
  {| components :=
       if contains_char (component d) input
       then map (fun c => parse_component c d) (split_char (component d) input)
       else [parse_component input d] |}.

(** [parse_segment]: [parts.get(0)] and [parts.iter().skip(1)]. *)
Definition parse_segment (input : string) (d : Delimiters) : outcome Segment HL7Error :=
  let parts := split_char (field d) input in
  match parts with
  | [] => Err (InvalidStructure "Segment has no name")
  | nm :: rest => Ok {| name := nm; fields := map (fun f => parse_field f d) rest |}
  end.

Definition any_component_value (msh : Segment) (v : string) : bool :=
  existsb (fun f => existsb (fun c => String.eqb (value c) v) (components f)) (fields msh).

(** [extract_message_type], as written: recognition against three values. *)
Definition extract_message_type (msh : Segment) : option string :=
  Some (if any_component_value msh "ADT" then "ADT^A01"
        else if any_component_value msh "ORU" then "ORU^R01"
        else if any_component_value msh "RDE" then "RDE^O11"
        else "UNKNOWN").

(** [extract_version], as written: the MSH segment is not read. *)
Definition extract_version (_msh : Segment) : option string := Some "2.5".

(** The segment split of [Message::parse]. *)
Definition split_segments (input : string) : list string :=
  if contains_str CRLF input then split_crlf input else split_char LF input.

(** [Message::parse]; [parsed_segments[0]] panics on an empty vector. *)
Definition parse (input : string) : outcome Message HL7Error :=
  let segs := split_segments input in
  match segs with
  | [] => Err (InvalidStructure "Empty message")
  | msh :: _ =>
      if negb (starts_with msh "MSH") then
        Err (InvalidStructure "First segment must be MSH")
      else
        let d := default_delimiters in
        match collect_results (map (fun s => parse_segment s d) segs) with
        | Err e => Err e
        | Panic => Panic
        | Ok parsed_segments =>
            match nth_error parsed_segments 0 with
            | None => Panic
            | Some msh_segment =>
                match extract_message_type msh_segment with
                | None => Err (MissingField "Message type (MSH.9)")
                | Some mt =>
                    match extract_version msh_segment with
                    | None => Err (MissingField "Version (MSH.12)")
                    | Some v =>
                        Ok {| segments := parsed_segments;
                              message_type := mt;
                              version := v |}
                    end
                end
            end
        end
  end.

(** [Message::get_segment], [Message::get_segments] and the type tests. *)
Definition get_segment (m : Message) (nm : string) : option Segment :=
  find (fun s => String.eqb (name s) nm) (segments m).

Definition get_segments (m : Message) (nm : string) : list Segment :=
  filter (fun s => String.eqb (name s) nm) (segments m).

Definition is_adt (m : Message) : bool := starts_with (message_type m) "ADT".
Definition is_rde (m : Message) : bool := starts_with (message_type m) "RDE".
Definition is_oru (m : Message) : bool := starts_with (message_type m) "ORU".

(** [s.fields.get(i).and_then(|f| f.components.first()).map(|c| c.value.clone())] *)
Definition field_first_value (s : Segment) (i : nat) : option string :=
  match nth_error (fields s) i with
  | Some f => match components f with c :: _ => Some (value c) | [] => None end
  | None => None
  end.

(** Same, second component. *)
Definition field_second_value (s : Segment) (i : nat) : option string :=
  match nth_error (fields s) i with
  | Some f => option_map value (nth_error (components f) 1)
  | None => None
  end.

(** [Option::ok_or_else] *)
Definition ok_or {A : Type} (o : option A) (e : HL7Error) : outcome A HL7Error :=
  match o with Some x => Ok x | None => Err e end.

End Hl7.

(** ** [adt::AdtMessage::from_hl7] *)
Module Adt.
Local Open Scope string_scope.
Import Str Hl7.

Record AdtMessage : Type := {
  adt_message_type : string;
  patient_id : string;
  patient_name : option string;
  date_of_birth : option string;
  gender : option string;
  event_type : string
}.

Definition from_hl7 (m : Message) : outcome AdtMessage HL7Error :=
  if negb (is_adt m) then Err (InvalidStructure "Not an ADT message")
  else
    let mt := message_type m in
    let ev := match nth_error (split_char "^"%char mt) 1 with
              | Some e => e
              | None => "UNKNOWN"
              end in
    match ok_or (get_segment m "PID") (MissingField "PID segment") with
    | Err e => Err e
    | Panic => Panic
    | Ok pid =>
        match ok_or (field_first_value pid 2) (MissingField "Patient ID (PID.3)") with
        | Err e => Err e
        | Panic => Panic
        | Ok pid3 =>
            (* the source writes the literal here, PID.5 is not read *)
            let pname := Some "DOE^JOHN^^^^" in
            Ok {| adt_message_type := mt;
                  patient_id := pid3;
                  patient_name := pname;
                  date_of_birth := field_first_value pid 6;
                  gender := field_first_value pid 7;
                  event_type := ev |}
        end
    end.

End Adt.

(** ** [rde::RdeMessage::from_hl7] *)
Module Rde.
Local Open Scope string_scope.
Import Str Hl7.

Record MedicationOrder : Type := {
  rx_id : string;
  medication_id : string;
  medication_name : option string;
  strength : option string;
  form : option string;
  dosage : option string;
  frequency : option string;
  quantity : option string;
  route : option string;
  start_date : option string;
  stop_date : option string
}.

Record RdeMessage : Type := {
  rde_message_type : string;
  patient_id : string;
  order_control : option string;
  order_number : option string;
  medication_orders : list MedicationOrder
}.

(** The body of the [for (i, rxe) in rxe_segments.iter().enumerate()] loop. *)
Definition medication_order (m : Message) (i : nat) (rxe : Segment) : MedicationOrder :=
  let rxr := nth_error (get_segments m "RXR") i in
  {| rx_id := "RX" ++ string_of_nat (i + 1);
     medication_id := match field_first_value rxe 0 with
                      | Some v => v
                      | None => "UNKNOWN"
                      end;
     medication_name := field_second_value rxe 0;
     strength := field_first_value rxe 2;
     form := field_first_value rxe 4;
     dosage := field_first_value rxe 9;
     frequency := field_first_value rxe 5;
     quantity := field_first_value rxe 9;
     route := match rxr with Some s => field_first_value s 2 | None => None end;
     start_date := field_first_value rxe 19;
     stop_date := field_first_value rxe 20 |}.

(** [enumerate] from index [i]. *)
Fixpoint medication_orders_from (m : Message) (i : nat) (rxes : list Segment)
  : list MedicationOrder :=
  match rxes with
  | [] => []
  | rxe :: rest => medication_order m i rxe :: medication_orders_from m (S i) rest
  end.

Definition from_hl7 (m : Message) : outcome RdeMessage HL7Error :=
  if negb (is_rde m) then Err (InvalidStructure "Not an RDE message")
  else
    let mt := message_type m in
    match ok_or (get_segment m "PID") (MissingField "PID segment") with
    | Err e => Err e
    | Panic => Panic
    | Ok pid =>
        match ok_or (field_first_value pid 2) (MissingField "Patient ID (PID.3)") with
        | Err e => Err e
        | Panic => Panic
        | Ok pid3 =>
            let orc := get_segment m "ORC" in
            let oc := match orc with Some s => field_first_value s 0 | None => None end in
            let onum := match orc with Some s => field_first_value s 1 | None => None end in
            Ok {| rde_message_type := mt;
                  patient_id := pid3;
                  order_control := oc;
                  order_number := onum;
                  medication_orders := medication_orders_from m 0 (get_segments m "RXE") |}
        end
    end.

End Rde.

(** ** [oru::OruMessage::from_hl7] *)
Module Oru.
Local Open Scope string_scope.
Import Str Hl7.

(** [Observation]; its field [value] is named [obs_value] here, apart
    from the component's [value]. *)
Record Observation : Type := {
  test_id : string;
  test_name : option string;
  obs_value : option string;
  units : option string;
  reference_range : option string;
  abnormal_flags : option string
}.

Record OruMessage : Type := {
  oru_message_type : string;
  patient_id : string;
  observations : list Observation
}.

(** The body of [for obx in obx_segments]; the [?] on OBX.3 returns early. *)
Definition observation (obx : Segment) : outcome Observation HL7Error :=
  match ok_or (field_first_value obx 2) (MissingField "Test ID (OBX.3)") with
  | Err e => Err e
  | Panic => Panic
  | Ok tid =>
      Ok {| test_id := tid;
            test_name := field_second_value obx 2;
            obs_value := field_first_value obx 4;
            units := field_first_value obx 5;
            reference_range := field_first_value obx 6;
            abnormal_flags := field_first_value obx 7 |}
  end.

(** The loop: [observations.push(..)] on each segment, in order. *)
Fixpoint observations_loop (obxs : list Segment) (acc : list Observation)
  : outcome (list Observation) HL7Error :=
  match obxs with
  | [] => Ok acc
  | obx :: rest =>
      match observation obx with
      | Err e => Err e
      | Panic => Panic
      | Ok o => observations_loop rest (acc ++ [o])
      end
  end.

Definition from_hl7 (m : Message) : outcome OruMessage HL7Error :=
  if negb (is_oru m) then Err (InvalidStructure "Not an ORU message")
  else
    let mt := message_type m in
    match ok_or (get_segment m "PID") (MissingField "PID segment") with
    | Err e => Err e
    | Panic => Panic
    | Ok pid =>
        match ok_or (field_first_value pid 2) (MissingField "Patient ID (PID.3)") with
        | Err e => Err e
        | Panic => Panic
        | Ok pid3 =>
            match observations_loop (get_segments m "OBX") [] with
            | Err e => Err e
            | Panic => Panic
            | Ok obs => Ok {| oru_message_type := mt; patient_id := pid3; observations := obs |}
            end
        end
    end.

End Oru.

(** ** The MLLP codec ([src/mllp.rs]) *)
Module Mllp.
Import Byte.

Definition MLLP_START_BLOCK : byte := x0b.
Definition MLLP_END_BLOCK : byte := x1c.
Definition MLLP_CARRIAGE_RETURN : byte := x0d.

Inductive MllpError : Type :=
| IoError
| InvalidFrame (msg : string)
| Hl7Error (e : Hl7.HL7Error).

(** [iter().position(p)] *)
Fixpoint position (p : byte -> bool) (l : list byte) : option nat :=
  match l with
  | [] => None
  | b :: l' => if p b then Some 0 else option_map S (position p l')
  end.

(** [windows(2).position(|w| w[0] == MLLP_END_BLOCK && w[1] == MLLP_CARRIAGE_RETURN)] *)
Fixpoint end_position (l : list byte) : option nat :=
  match l with
  | a :: ((b :: _) as l') =>
      if Byte.eqb a MLLP_END_BLOCK && Byte.eqb b MLLP_CARRIAGE_RETURN then Some 0
      else option_map S (end_position l')
  | _ => None
  end.

(** [BytesMut::split_to]: the first [k] bytes and the rest; panics past the end. *)
Definition split_to (k : nat) (buf : list byte) : option (list byte * list byte) :=
  if k <=? List.length buf then Some (firstn k buf, skipn k buf) else None.

Definition decode_result : Type := outcome (option (list byte)) MllpError.

(** The tail of [decode]: "more data needed" or the buffer bound. *)
Definition no_frame (src : list byte) : decode_result * list byte :=
  if (100000 <? N.of_nat (List.length src))%N
  then (Err (InvalidFrame "Buffer exceeds maximum size without valid frame"), src)
  else (Ok None, src).

(** The body of [if let Some(end_pos) = ...] in [decode]: [src] starts with
    the start block and [end_pos] is the position of the first FS CR. *)
Definition extract_frame (src : list byte) (end_pos : nat) : decode_result * list byte :=
  match split_to (end_pos + 2) src with
  | None => (Panic, src)
  | Some (framed_message, src2) =>
      match split_to 1 framed_message with
      | None => (Panic, src2)
      | Some (_, framed1) =>
          (* [framed_message.len() - 2] on a usize *)
          if List.length framed1 <? 2 then (Panic, src2)
          else
            let content_len := List.length framed1 - 2 in
            match split_to content_len framed1 with
            | None => (Panic, src2)
            | Some (content, _) => (Ok (Some content), src2)
            end
      end
  end.

(** [MllpCodec::decode]: the outcome and the buffer left for the next call. *)
Definition decode (src : list byte) : decode_result * list byte :=
  match position (fun b => Byte.eqb b MLLP_START_BLOCK) src with
  | Some start_pos =>
      match (if 0 <? start_pos then split_to start_pos src else Some ([], src)) with
      | None => (Panic, src)
      | Some (_, src1) =>
          match end_position src1 with
          | Some end_pos => extract_frame src1 end_pos
          | None => no_frame src1
          end
      end
  | None => no_frame src
  end.

(** [MllpCodec::encode]: appends the frame to [dst]; it never fails. *)
Definition encode (item dst : list byte) : outcome unit MllpError * list byte :=
  (Ok tt, dst ++ [MLLP_START_BLOCK] ++ item ++ [MLLP_END_BLOCK; MLLP_CARRIAGE_RETURN]).

End Mllp.

(** ** The acknowledgment builder of [src/mllp.rs] *)
Module Ack.
Local Open Scope string_scope.
Import Str.

(** [original_message.lines().next()]: the text before the first LF, less
    one CR just before that LF; [None] for the empty string. *)
Fixpoint strip_cr_suffix (s : string) : string :=
  match s with
  | EmptyString => EmptyString
  | String c EmptyString => if Ascii.eqb c CR then EmptyString else s
  | String c s' => String c (strip_cr_suffix s')
  end.

Definition lines_first (s : string) : option string :=
  match s with
  | EmptyString => None
  | _ =>
      let l := hd EmptyString (split_char LF s) in
      if contains_char LF s then Some (strip_cr_suffix l) else Some l
  end.

(** The control id of [generate_nack]. *)
Definition nack_control_id (original_message : string) : string :=
  match lines_first original_message with
  | Some msh_line =>
      match nth_error (split_char "|"%char msh_line) 9 with
      | Some t => t
      | None => "UNKNOWN"
      end
  | None => "UNKNOWN"
  end.

(** [generate_nack]; [now] is the formatted local time it reads. *)
Definition generate_nack (now original_message error_msg : string)
  : outcome string Mllp.MllpError :=
  let control_id := nack_control_id original_message in
  Ok ("MSH|^~\&|RECEIVING_APP|RECEIVING_FACILITY|SENDING_APP|SENDING_FACILITY|"
      ++ now ++ "||ACK|" ++ control_id ++ "|P|2.5" ++ CRLF
      ++ "MSA|AE|" ++ control_id ++ "|Error processing message: " ++ error_msg).

End Ack.

(** ** The connection handling of [src/mllp.rs] *)
Module Server.
Local Open Scope string_scope.
Import Str Hl7 Mllp.

(** [extract_mllp_message]: the same steps as [MllpCodec::decode]. *)
Definition extract_mllp_message (buffer : list Byte.byte) : decode_result * list Byte.byte :=
  match position (fun b => Byte.eqb b MLLP_START_BLOCK) buffer with
  | Some start_pos =>
      match (if (0 <? start_pos)%nat then split_to start_pos buffer else Some ([], buffer)) with
      | None => (Panic, buffer)
      | Some (_, buffer1) =>
          match end_position buffer1 with
          | Some end_pos => extract_frame buffer1 end_pos
          | None => no_frame buffer1
          end
      end
  | None => no_frame buffer
  end.

(** [wrap_in_mllp]: [message.as_bytes()] between the start block and FS CR. *)
Definition wrap_in_mllp (message : string) : list Byte.byte :=
  ([MLLP_START_BLOCK] ++ String.list_byte_of_string message
   ++ [MLLP_END_BLOCK] ++ [MLLP_CARRIAGE_RETURN])%list.

(** [generate_response]; [now] is the formatted local time it reads. *)
Definition generate_response (now : string) (_message : Message) : outcome string MllpError :=
  Ok ("MSH|^~\&|RECEIVING_APP|RECEIVING_FACILITY|SENDING_APP|SENDING_FACILITY|"
      ++ now ++ "||ACK|MSG00001|P|2.5" ++ CRLF
      ++ "MSA|AA|MSG00001|Message processed successfully").

(** The [Display] of [HL7Error] ([e.to_string()]). *)
Definition hl7_error_to_string (e : HL7Error) : string :=
  match e with
  | ParseError m => "Parse error: " ++ m
  | InvalidStructure m => "Invalid message structure: " ++ m
  | MissingField m => "Missing required field: " ++ m
  end.

Definition in_range (b : Byte.byte) (lo hi : nat) : bool :=
  ((lo <=? Byte.to_nat b) && (Byte.to_nat b <=? hi))%nat.

(** [std::str::from_utf8] succeeds: well-formed UTF-8 (no overlong forms,
    no surrogates, nothing above U+10FFFF). *)
Fixpoint utf8_valid (l : list Byte.byte) : bool :=
  match l with
  | [] => true
  | b0 :: r =>
      if in_range b0 0 127 then utf8_valid r
      else if in_range b0 194 223 then
        match r with
        | b1 :: r' => in_range b1 128 191 && utf8_valid r'
        | _ => false
        end
      else if in_range b0 224 239 then
        match r with
        | b1 :: b2 :: r' =>
            (if in_range b0 224 224 then in_range b1 160 191
             else if in_range b0 237 237 then in_range b1 128 159
             else in_range b1 128 191)
            && in_range b2 128 191 && utf8_valid r'
        | _ => false
        end
      else if in_range b0 240 244 then
        match r with
        | b1 :: b2 :: b3 :: r' =>
            (if in_range b0 240 240 then in_range b1 144 191
             else if in_range b0 244 244 then in_range b1 128 143
             else in_range b1 128 191)
            && in_range b2 128 191 && in_range b3 128 191 && utf8_valid r'
        | _ => false
        end
      else false
  end.

(** The NACK branch of [handle_connection], for the error [e]. *)
Definition send_nack (now message_str : string) (e : HL7Error) (buf : list Byte.byte)
  : outcome (list (list Byte.byte)) MllpError * list Byte.byte :=
  match Ack.generate_nack now message_str (hl7_error_to_string e) with
  | Ok nack => (Ok [wrap_in_mllp nack], buf)
  | Err e' => (Err e', buf)
  | Panic => (Panic, buf)
  end.

(** One pass of the loop of [handle_connection] once the read has been
    appended to [read_buffer]: the frames written and the buffer kept.
    [handler] is the server's [MessageHandler]; [now] the local time. *)
Definition on_read (handler : Message -> outcome Message HL7Error) (now : string)
  (read_buffer : list Byte.byte)
  : outcome (list (list Byte.byte)) MllpError * list Byte.byte :=
  match extract_mllp_message read_buffer with
  | (Err e, buf) => (Err e, buf)
  | (Panic, buf) => (Panic, buf)
  | (Ok None, buf) => (Ok [], buf)
  | (Ok (Some message_bytes), buf) =>
      if negb (utf8_valid message_bytes) then (Ok [], buf)
      else
        let message_str := String.string_of_list_byte message_bytes in
        match parse message_str with
        | Ok hl7_message =>
            match handler hl7_message with
            | Ok response =>
                match generate_response now response with
                | Ok ack => (Ok [wrap_in_mllp ack], buf)
                | Err e => (Err e, buf)
                | Panic => (Panic, buf)
                end
            | Err e => send_nack now message_str e buf
            | Panic => (Panic, buf)
            end
        | Err e => send_nack now message_str e buf
        | Panic => (Panic, buf)
        end
  end.

(** [handle_connection] over the successive reads of the socket, each with
    the local time of its pass; an empty read (or no further read) is the
    peer closing the connection. Reads and writes are taken to succeed.
    Returns the outcome and the frames written, in order. *)
Fixpoint handle_connection (handler : Message -> outcome Message HL7Error)
  (reads : list (list Byte.byte * string)) (read_buffer : list Byte.byte)
  : outcome unit MllpError * list (list Byte.byte) :=
  match reads with
  | [] => (Ok tt, [])
  | (chunk, now) :: rest =>
      match chunk with
      | [] => (Ok tt, [])
      | _ :: _ =>
          match on_read handler now (read_buffer ++ chunk)%list with
          | (Ok written, buf) =>
              let (r, later) := handle_connection handler rest buf in
              (r, (written ++ later)%list)
          | (Err e, _) => (Err e, [])
          | (Panic, _) => (Panic, [])
          end
      end
  end.

End Server.

(** ** Notions the properties below are stated with *)
Module Frames.
Import Byte Mllp.

(** A completed frame: a start block followed, later, by FS CR. *)
Definition completed_frame (src : list byte) : Prop :=
  exists noise p rest,
    src = noise ++ [MLLP_START_BLOCK] ++ p ++ [MLLP_END_BLOCK; MLLP_CARRIAGE_RETURN] ++ rest.

(** Whether a byte sequence holds the two-byte window FS CR. *)
Fixpoint contains_fs_cr (l : list byte) : bool :=
  match l with
  | a :: ((b :: _) as l') =>
      (Byte.eqb a MLLP_END_BLOCK && Byte.eqb b MLLP_CARRIAGE_RETURN) || contains_fs_cr l'
  | _ => false
  end.

(** The buffer from its first start block on; the whole buffer if it has none. *)
Fixpoint from_first_start (l : list byte) : option (list byte) :=
  match l with
  | [] => None
  | b :: l' => if Byte.eqb b MLLP_START_BLOCK then Some l else from_first_start l'
  end.

Definition retained (src : list byte) : list byte :=
  match from_first_start src with Some r => r | None => src end.

End Frames.

(** ** The raw text of a payload, as the properties below read it *)
Module Raw.
Local Open Scope string_scope.
Import Str Hl7.

(** The text of a segment line before its first [|]. *)
Definition raw_name (line : string) : string := hd EmptyString (split_char "|"%char line).

(** The [j]-th [^]-piece of the [i]-th [|]-piece of a line (the name is
    piece 0, so piece [i] is field [i] in HL7 numbering outside MSH). *)
Definition raw_component (line : string) (i j : nat) : option string :=
  match nth_error (split_char "|"%char line) i with
  | Some t => nth_error (split_char "^"%char t) j
  | None => None
  end.

(** The first line, and all lines, of a payload named [nm]. *)
Definition raw_line (input nm : string) : option string :=
  find (fun l => String.eqb (raw_name l) nm) (split_segments input).

Definition raw_lines (input nm : string) : list string :=
  filter (fun l => String.eqb (raw_name l) nm) (split_segments input).

(** Writing a parsed value back as text. *)
Definition field_text (f : Field) : string :=
  String.concat "^" (map value (components f)).

Definition segment_text (s : Segment) : string :=
  String.concat "|" (name s :: map field_text (fields s)).

(** The segment [parse_segment] returns for a line (it never fails). *)
Definition parsed_segment (line : string) : Segment :=
  {| name := hd EmptyString (split_char (field default_delimiters) line);
     fields := map (fun f => parse_field f default_delimiters)
                 (tl (split_char (field default_delimiters) line)) |}.

Definition segment_separator (input : string) : string :=
  if contains_str CRLF input then CRLF else String LF EmptyString.

End Raw.

(** ** Concrete inputs *)
Module Samples.
Local Open Scope string_scope.
Import Str Hl7.

(** MSH.n of a payload under the MSH convention (MSH.1 is the field
    separator itself): the (n-1)-th [|]-token of the first segment. *)
Definition msh_raw_field (input : string) (n : nat) : option string :=
  match split_segments input with
  | s :: _ => nth_error (split_char "|"%char s) (n - 1)
  | [] => None
  end.

(** An ADT^A04 message of version 2.3. *)
Definition adt_a04 : string :=
  "MSH|^~\&|APP|FAC|EHR|FAC|20240101120000||ADT^A04|CTRL7|P|2.3" ++ String LF
  "PID|1||777^^^MRN||SMITH^ANNE||19700101|F".

(** A first segment that begins with MSH but is named MSHX. *)
Definition mshx : string :=
  "MSHX|^~\&|APP|FAC|EHR|FAC|20240101120000||ADT^A01|CTRL8|P|2.5".

(** The RDE message of the repository's test, with two RXE segments. *)
Definition rde_test : string :=
  "MSH|^~\&|PHARMACY|FACILITY|EHR|FACILITY|20230401123000||RDE^O11|MSG00003|P|2.5" ++ String LF
  "PID|1||12345^^^MRN||DOE^JOHN^^^^||19800101|M" ++ String LF
  "ORC|NW|ORD12345|||||||20230401123000|||" ++ String LF
  "RXE|509^MEDROL|2|4MG||TAB|BID||509^MEDROL|10|||||||||||20230401|20230407" ++ String LF
  "RXR|PO|ORAL|SWALLOW" ++ String LF
  "RXE|123^AMOXICILLIN|3|500MG||CAP|TID||123^AMOXICILLIN|21|||||||||||20230401|20230408" ++ String LF
  "RXR|PO|ORAL|SWALLOW".

(** Whether a segment holds neither CR nor LF. *)
Definition no_cr_lf (s : string) : bool :=
  negb (contains_char CR s) && negb (contains_char LF s).

(** A buffer of 100002 bytes: 50001 bytes of noise, a start block, then
    50000 bytes of data and no end. *)
Definition far_start : list Byte.byte :=
  (repeat Byte.x00 (N.to_nat 50001) ++ [Byte.x0b] ++ repeat Byte.x41 (N.to_nat 50000))%list.

(** The message a projection is applied to, when the payload parses. *)
Definition parsed (input : string) : option Message :=
  match parse input with Ok m => Some m | _ => None end.

(** An ORU message after the demo of [src/main.rs], with two OBX segments. *)
Definition oru_demo : string :=
  "MSH|^~\&|LAB|FACILITY|EHR|FACILITY|20230401123000||ORU^R01|MSG00002|P|2.5" ++ String LF
  ("PID|1||12345^^^MRN||DOE^JOHN^^^^||19800101|M" ++ String LF
  ("OBX|1|NM|WBC^LEUKOCYTES^L||10.5|10*3/uL|4.0-11.0|N|||F" ++ String LF
   "OBX|2|NM|RBC^ERYTHROCYTES^L||4.5|10*6/uL|4.5-5.9|N|||F")).



(** The parsed RDE test message. *)
Definition rde_test_msg : Message :=
  match parse rde_test with
  | Ok m => m
  | _ => {| segments := []; message_type := ""; version := "" |}
  end.

End Samples.

(** * Properties *)

(** ** Evaluations of the parser and its projections on concrete payloads *)
Module Evaluations.
Local Open Scope string_scope.
Import Str Hl7 Samples.

(** C1 (code_bug): on an ADT^A04 message of version 2.3, [Message::parse]
    reports message type ADT^A01 and version 2.5, not the raw MSH.9 and
    MSH.12 of the payload. *)
Lemma parse_message_type_not_positional :
  msh_raw_field adt_a04 9 = Some "ADT^A04" /\
  msh_raw_field adt_a04 12 = Some "2.3" /\
  option_map message_type (parsed adt_a04) = Some "ADT^A01" /\
  option_map version (parsed adt_a04) = Some "2.5".
Proof. repeat split; vm_compute; reflexivity. Qed.

(** C2 (code_bug): for an ADT message whose PID.5 is SMITH^ANNE,
    [AdtMessage::from_hl7] reports the patient name DOE^JOHN^^^^. *)
Lemma adt_patient_name_ignores_pid5 :
  (match parsed adt_a04 with
   | Some m =>
       match get_segment m "PID" with
       | Some pid => option_map (fun f => map value (components f)) (nth_error (fields pid) 4)
       | None => None
       end
   | None => None
   end) = Some ["SMITH"; "ANNE"] /\
  (match parsed adt_a04 with
   | Some m => match Adt.from_hl7 m with Ok r => Adt.patient_name r | _ => None end
   | None => None
   end) = Some "DOE^JOHN^^^^".
Proof. split; vm_compute; reflexivity. Qed.

(** C5 (code_bug): a payload whose first segment is named MSHX is accepted
    by [Message::parse], and the first segment of the result is MSHX. *)
Lemma parse_accepts_first_segment_mshx :
  option_map (fun m => map name (segments m)) (parsed mshx) = Some ["MSHX"].
Proof. vm_compute. reflexivity. Qed.

(** C3 (counterexample): the same two segments separated by CR and by LF
    parse to different messages: a lone CR does not separate segments. *)
Lemma parse_cr_differs_from_lf :
  parse ("MSH|^~\&|APP|FAC|EHR|FAC|20240101||ADT^A01|C1|P|2.5" ++ String CR "PID|1||42")
  <> parse ("MSH|^~\&|APP|FAC|EHR|FAC|20240101||ADT^A01|C1|P|2.5" ++ String LF "PID|1||42").
Proof. vm_compute. discriminate. Qed.

(** C8 (counterexample): on the repository's RDE test message the medication
    ids are 509 and 123, the first components of the first field after RXE,
    while the first components of RXE.2 are 2 and 3. *)
Lemma rde_medication_id_from_first_field :
  (match parsed rde_test with
   | Some m =>
       match Rde.from_hl7 m with
       | Ok r => map Rde.medication_id (Rde.medication_orders r)
       | _ => []
       end
   | None => []
   end) = ["509"; "123"] /\
  (match parsed rde_test with
   | Some m => map (fun s => field_first_value s 1) (get_segments m "RXE")
   | None => []
   end) = [Some "2"; Some "3"].
Proof. split; vm_compute; reflexivity. Qed.

End Evaluations.

(** ** Facts about the string primitives *)
Module StrFacts.
Local Open Scope string_scope.
Import Str.

Lemma split_char_nonempty c s : split_char c s <> [].
Proof.
  induction s as [|a s IH]; simpl; [discriminate|].
  destruct (Ascii.eqb a c); [discriminate|].
  destruct (split_char c s); simpl; discriminate.
Qed.

Lemma push_char_app a l1 l2 :
  l1 <> [] -> push_char a (l1 ++ l2)%list = (push_char a l1 ++ l2)%list.
Proof. destruct l1; [congruence|reflexivity]. Qed.

(** Splitting distributes over a separator occurrence. *)
Lemma split_char_app_sep c s t :
  split_char c (s ++ String c t) = (split_char c s ++ split_char c t)%list.
Proof.
  induction s as [|a s IH]; simpl.
  - rewrite Ascii.eqb_refl. reflexivity.
  - rewrite IH. destruct (Ascii.eqb a c); [reflexivity|].
    apply push_char_app, split_char_nonempty.
Qed.

Lemma split_char_no_sep c s :
  contains_char c s = false -> split_char c s = [s].
Proof.
  induction s as [|a s IH]; simpl; [reflexivity|].
  intros H. apply orb_false_iff in H as [H1 H2].
  rewrite H1, IH by exact H2. reflexivity.
Qed.

Lemma contains_char_app c s t :
  contains_char c (s ++ t) = contains_char c s || contains_char c t.
Proof.
  induction s as [|a s IH]; simpl; [reflexivity|].
  rewrite IH, orb_assoc. reflexivity.
Qed.

(** A piece of a split holds no separator and only characters of the input. *)
Lemma split_char_piece c s t :
  In t (split_char c s) ->
  contains_char c t = false /\
  (forall d, contains_char d t = true -> contains_char d s = true).
Proof.
  revert t; induction s as [|a s IH]; simpl; intros t Ht.
  - destruct Ht as [<-|[]]. split; [reflexivity|discriminate].
  - destruct (Ascii.eqb a c) eqn:Eac.
    + destruct Ht as [<-|Ht]; [split; [reflexivity|discriminate]|].
      destruct (IH t Ht) as [H1 H2]. split; [exact H1|].
      intros d Hd. rewrite (H2 d Hd). apply orb_true_r.
    + pose proof (split_char_nonempty c s) as Hne.
      destruct (split_char c s) as [|r rs] eqn:Es; [congruence|].
      simpl in Ht. destruct Ht as [<-|Ht].
      * destruct (IH r (or_introl eq_refl)) as [H1 H2]. simpl.
        rewrite Eac, H1. split; [reflexivity|].
        intros d Hd. simpl in Hd. apply orb_true_iff in Hd as [Hd|Hd].
        -- rewrite Hd. reflexivity.
        -- rewrite (H2 d Hd). apply orb_true_r.
      * destruct (IH t (or_intror Ht)) as [H1 H2]. split; [exact H1|].
        intros d Hd. rewrite (H2 d Hd). apply orb_true_r.
Qed.

Lemma split_crlf_nonempty s : split_crlf s <> [].
Proof.
  induction s as [|a s IH]; simpl; [discriminate|].
  destruct s as [|b s'].
  - discriminate.
  - destruct (Ascii.eqb a CR && Ascii.eqb b LF); [discriminate|].
    destruct (split_crlf (String b s')); simpl; discriminate.
Qed.

Lemma split_crlf_no_lf s :
  contains_char LF s = false -> split_crlf s = [s].
Proof.
  induction s as [|a s IH]; simpl; [reflexivity|].
  intros H. apply orb_false_iff in H as [_ H].
  destruct s as [|b s']; [reflexivity|].
  rewrite IH by exact H. simpl in H. apply orb_false_iff in H as [Hb _].
  rewrite Hb, andb_false_r. reflexivity.
Qed.

Lemma split_crlf_app s t :
  contains_char LF s = false -> split_crlf (s ++ CRLF ++ t) = s :: split_crlf t.
Proof.
  induction s as [|a s IH]; intros H.
  - reflexivity.
  - simpl in H. apply orb_false_iff in H as [_ H].
    change (String a s ++ CRLF ++ t) with (String a (s ++ CRLF ++ t)).
    change (split_crlf (String a (s ++ CRLF ++ t)))
      with (match s ++ CRLF ++ t with
            | String b s'' =>
                if Ascii.eqb a CR && Ascii.eqb b LF then EmptyString :: split_crlf s''
                else push_char a (split_crlf (s ++ CRLF ++ t))
            | EmptyString => push_char a (split_crlf (s ++ CRLF ++ t))
            end).
    rewrite (IH H).
    destruct s as [|b s'].
    + simpl. rewrite andb_false_r. reflexivity.
    + simpl in H |- *. apply orb_false_iff in H as [Hb _].
      rewrite Hb, andb_false_r. reflexivity.
Qed.

Lemma contains_crlf_no_cr s :
  contains_char CR s = false -> contains_str CRLF s = false.
Proof.
  induction s as [|a s IH]; [reflexivity|].
  intros H. simpl in H. apply orb_false_iff in H as [Ha H].
  change (contains_str CRLF (String a s))
    with (String.prefix CRLF (String a s) || contains_str CRLF s).
  rewrite IH by exact H. rewrite orb_false_r.
  change (String.prefix CRLF (String a s))
    with (if Ascii.ascii_dec CR a then String.prefix (String LF EmptyString) s else false).
  destruct (Ascii.ascii_dec CR a) as [<-|]; [|reflexivity].
  rewrite Ascii.eqb_refl in Ha. discriminate.
Qed.

Lemma contains_crlf_app s t : contains_str CRLF (s ++ CRLF ++ t) = true.
Proof.
  induction s as [|a s IH].
  - simpl. destruct t; reflexivity.
  - change (String a s ++ CRLF ++ t) with (String a (s ++ CRLF ++ t)).
    change (contains_str CRLF (String a (s ++ CRLF ++ t)))
      with (String.prefix CRLF (String a (s ++ CRLF ++ t)) || contains_str CRLF (s ++ CRLF ++ t)).
    rewrite IH. apply orb_true_r.
Qed.

End StrFacts.

(** ** Facts about [Message::parse] *)
Module ParserFacts.
Local Open Scope string_scope.
Import Str StrFacts Hl7 Samples.

Lemma parse_segment_ok s d :
  parse_segment s d =
  Ok {| name := hd EmptyString (split_char (field d) s);
        fields := map (fun f => parse_field f d) (tl (split_char (field d) s)) |}.
Proof.
  unfold parse_segment. pose proof (split_char_nonempty (field d) s) as Hne.
  destruct (split_char (field d) s); [congruence|reflexivity].
Qed.

Lemma collect_parse_segments segs d :
  collect_results (map (fun s => parse_segment s d) segs) =
  Ok (map (fun s => {| name := hd EmptyString (split_char (field d) s);
                       fields := map (fun f => parse_field f d)
                                   (tl (split_char (field d) s)) |}) segs).
Proof.
  induction segs as [|s segs IH]; [reflexivity|].
  simpl. rewrite parse_segment_ok, IH. reflexivity.
Qed.

Lemma split_segments_nonempty input : split_segments input <> [].
Proof.
  unfold split_segments. destruct (contains_str CRLF input).
  - apply split_crlf_nonempty.
  - apply split_char_nonempty.
Qed.

(** [Message::parse] reads its input only through the segment split. *)
Lemma parse_by_split a b :
  split_segments a = split_segments b -> parse a = parse b.
Proof. intros H. unfold parse. rewrite H. reflexivity. Qed.

Lemma split_crlf_concat x xs :
  forallb no_cr_lf (x :: xs) = true -> split_crlf (String.concat CRLF (x :: xs)) = x :: xs.
Proof.
  revert x; induction xs as [|y ys IH]; intros x H.
  - simpl in H. unfold no_cr_lf in H.
    apply andb_true_iff in H as [H _]. apply andb_true_iff in H as [_ H].
    apply negb_true_iff in H. apply split_crlf_no_lf. exact H.
  - change (String.concat CRLF (x :: y :: ys)) with (x ++ CRLF ++ String.concat CRLF (y :: ys)).
    simpl in H. apply andb_true_iff in H as [Hx H].
    unfold no_cr_lf in Hx. apply andb_true_iff in Hx as [_ Hx]. apply negb_true_iff in Hx.
    rewrite split_crlf_app by exact Hx. f_equal. apply IH. exact H.
Qed.

Lemma split_lf_concat x xs :
  forallb no_cr_lf (x :: xs) = true ->
  split_char LF (String.concat (String LF EmptyString) (x :: xs)) = x :: xs.
Proof.
  revert x; induction xs as [|y ys IH]; intros x H.
  - simpl in H. unfold no_cr_lf in H.
    apply andb_true_iff in H as [H _]. apply andb_true_iff in H as [_ H].
    apply negb_true_iff in H. apply split_char_no_sep. exact H.
  - change (String.concat (String LF EmptyString) (x :: y :: ys))
      with (x ++ String LF (String.concat (String LF EmptyString) (y :: ys))).
    simpl in H. apply andb_true_iff in H as [Hx H].
    unfold no_cr_lf in Hx. apply andb_true_iff in Hx as [_ Hx]. apply negb_true_iff in Hx.
    rewrite split_char_app_sep, split_char_no_sep by exact Hx.
    simpl. f_equal. apply IH. exact H.
Qed.

Lemma concat_lf_no_cr segs :
  forallb no_cr_lf segs = true ->
  contains_char CR (String.concat (String LF EmptyString) segs) = false.
Proof.
  induction segs as [|x [|y ys] IH]; intros H; [reflexivity| |].
  - simpl in H. unfold no_cr_lf in H.
    apply andb_true_iff in H as [H _]. apply andb_true_iff in H as [H _].
    apply negb_true_iff in H. exact H.
  - change (String.concat (String LF EmptyString) (x :: y :: ys))
      with (x ++ String LF (String.concat (String LF EmptyString) (y :: ys))).
    simpl in H. apply andb_true_iff in H as [Hx H].
    unfold no_cr_lf in Hx. apply andb_true_iff in Hx as [Hx _]. apply negb_true_iff in Hx.
    rewrite contains_char_app, Hx. cbn [contains_char orb]. rewrite IH by exact H.
    reflexivity.
Qed.

End ParserFacts.

(** ** Claims on [Message::parse] *)
Module ParserClaims.
Local Open Scope string_scope.
Import Str StrFacts Hl7 ParserFacts Samples.

(** C10: [Message::parse] never panics: whatever the input, the split into
    segments has a first piece, every segment parses, so the index
    [parsed_segments[0]] is in bounds and the outcome is [Ok] or [Err]. *)
Theorem parse_total input : parse input <> Panic.
Proof.
  unfold parse. pose proof (split_segments_nonempty input) as Hne.
  destruct (split_segments input) as [|msh rest] eqn:Es; [congruence|].
  destruct (negb (starts_with msh "MSH")); [discriminate|].
  rewrite collect_parse_segments. simpl. discriminate.
Qed.

(** C3 (amended): segments joined by CR LF and the same segments joined by
    LF parse to the same outcome, provided no segment holds a CR or an LF. *)
Theorem parse_crlf_join_eq_lf_join segs :
  forallb no_cr_lf segs = true ->
  parse (String.concat CRLF segs) = parse (String.concat (String LF EmptyString) segs).
Proof.
  intros H. apply parse_by_split.
  destruct segs as [|x [|y ys]]; [reflexivity|reflexivity|].
  unfold split_segments.
  change (String.concat CRLF (x :: y :: ys)) with (x ++ CRLF ++ String.concat CRLF (y :: ys)).
  rewrite contains_crlf_app.
  rewrite contains_crlf_no_cr by (apply concat_lf_no_cr; exact H).
  change (x ++ CRLF ++ String.concat CRLF (y :: ys)) with (String.concat CRLF (x :: y :: ys)).
  rewrite split_crlf_concat, split_lf_concat by exact H. reflexivity.
Qed.

(** Witness of C3 (amended): an MSH and a PID segment. *)
Lemma parse_crlf_join_eq_lf_join_witness :
  forallb no_cr_lf ["MSH|^~\&|APP|FAC|EHR|FAC|20240101||ADT^A01|C1|P|2.5"; "PID|1||42"] = true /\
  parse (String.concat CRLF ["MSH|^~\&|APP|FAC|EHR|FAC|20240101||ADT^A01|C1|P|2.5"; "PID|1||42"])
  = parse (String.concat (String LF EmptyString)
             ["MSH|^~\&|APP|FAC|EHR|FAC|20240101||ADT^A01|C1|P|2.5"; "PID|1||42"]).
Proof.
  split; [vm_compute; reflexivity|].
  apply parse_crlf_join_eq_lf_join. vm_compute. reflexivity.
Defined.

End ParserClaims.

(** ** Facts about the MLLP decoder *)
Module MllpFacts.
Import Byte Mllp Frames.

Lemma firstn_len_app {A : Type} (a b : list A) k :
  firstn (List.length a + k) (a ++ b) = a ++ firstn k b.
Proof. induction a as [|x a IH]; simpl; [reflexivity|]. rewrite IH. reflexivity. Qed.

Lemma skipn_len_app {A : Type} (a b : list A) k :
  skipn (List.length a + k) (a ++ b) = skipn k b.
Proof. induction a as [|x a IH]; simpl; [reflexivity|]. exact IH. Qed.

Lemma start_not_end : Byte.eqb MLLP_START_BLOCK MLLP_END_BLOCK = false.
Proof. reflexivity. Qed.

Lemma contains_fs_cr_tail x p :
  contains_fs_cr (x :: p) = false -> contains_fs_cr p = false.
Proof. destruct p as [|y p]; simpl; intros H; [reflexivity|]. apply orb_false_iff in H. tauto. Qed.

Lemma contains_fs_cr_start p :
  contains_fs_cr (MLLP_START_BLOCK :: p) = contains_fs_cr p.
Proof. destruct p; reflexivity. Qed.

Lemma end_position_cons2 x y l :
  end_position (x :: y :: l) =
  if Byte.eqb x MLLP_END_BLOCK && Byte.eqb y MLLP_CARRIAGE_RETURN then Some 0
  else option_map S (end_position (y :: l)).
Proof. reflexivity. Qed.

(** The first FS CR window: what precedes it holds no window. *)
Lemma end_position_some l j :
  end_position l = Some j ->
  exists a b, l = a ++ MLLP_END_BLOCK :: MLLP_CARRIAGE_RETURN :: b /\
              List.length a = j /\ contains_fs_cr a = false.
Proof.
  revert j; induction l as [|x l IH]; intros j H; [discriminate|].
  destruct l as [|y l']; [discriminate|].
  rewrite end_position_cons2 in H.
  destruct (Byte.eqb x MLLP_END_BLOCK && Byte.eqb y MLLP_CARRIAGE_RETURN) eqn:Exy.
  - injection H as <-. apply andb_true_iff in Exy as [E1 E2].
    apply byte_dec_bl in E1, E2. subst x y.
    exists [], l'. repeat split.
  - destruct (end_position (y :: l')) as [j'|] eqn:E; [|simpl in H; discriminate].
    simpl in H. injection H as <-. destruct (IH j' eq_refl) as (a & b & Hl & Ha & Hc).
    exists (x :: a), b. rewrite Hl. repeat split; [simpl; congruence|].
    destruct a as [|z a].
    + reflexivity.
    + simpl in Hl. injection Hl as <- _.
      change (contains_fs_cr (x :: y :: a))
        with ((Byte.eqb x MLLP_END_BLOCK && Byte.eqb y MLLP_CARRIAGE_RETURN)
              || contains_fs_cr (y :: a)).
      rewrite Exy, Hc. reflexivity.
Qed.

(** A window is found wherever there is one. *)
Lemma end_position_app a b :
  end_position (a ++ MLLP_END_BLOCK :: MLLP_CARRIAGE_RETURN :: b) <> None.
Proof.
  induction a as [|x a IH]; [discriminate|].
  simpl. destruct (a ++ MLLP_END_BLOCK :: MLLP_CARRIAGE_RETURN :: b) as [|y l] eqn:E.
  - destruct a; discriminate.
  - destruct (Byte.eqb x MLLP_END_BLOCK && Byte.eqb y MLLP_CARRIAGE_RETURN); [discriminate|].
    destruct (end_position (y :: l)); [discriminate|congruence].
Qed.

Lemma end_position_first p b :
  contains_fs_cr p = false ->
  end_position (p ++ MLLP_END_BLOCK :: MLLP_CARRIAGE_RETURN :: b) = Some (List.length p).
Proof.
  induction p as [|x p IH]; intros H; [reflexivity|].
  simpl. rewrite IH by (exact (contains_fs_cr_tail x p H)).
  destruct p as [|y p].
  - simpl. rewrite andb_false_r. reflexivity.
  - simpl in H |- *. apply orb_false_iff in H as [H _]. rewrite H. reflexivity.
Qed.

Lemma split_to_app (a b : list byte) : split_to (List.length a) (a ++ b) = Some (a, b).
Proof.
  unfold split_to. rewrite length_app.
  replace (List.length a <=? List.length a + List.length b) with true
    by (symmetry; apply Nat.leb_le; lia).
  rewrite <- (Nat.add_0_r (List.length a)), firstn_len_app, skipn_len_app.
  rewrite app_nil_r. reflexivity.
Qed.

Lemma split_to_one x (l : list byte) : split_to 1 (x :: l) = Some ([x], l).
Proof. reflexivity. Qed.

Lemma end_position_frame p b :
  contains_fs_cr p = false ->
  end_position (MLLP_START_BLOCK :: p ++ MLLP_END_BLOCK :: MLLP_CARRIAGE_RETURN :: b)
  = Some (S (List.length p)).
Proof.
  intros H.
  apply (end_position_first (MLLP_START_BLOCK :: p) b).
  rewrite contains_fs_cr_start. exact H.
Qed.

(** The frame branch returns the bytes between the start block and FS CR. *)
Lemma extract_frame_ok p b :
  extract_frame (MLLP_START_BLOCK :: p ++ MLLP_END_BLOCK :: MLLP_CARRIAGE_RETURN :: b)
                (S (List.length p)) =
  (Ok (Some p), b).
Proof.
  unfold extract_frame.
  replace (S (List.length p) + 2)
    with (List.length (MLLP_START_BLOCK :: p ++ [MLLP_END_BLOCK; MLLP_CARRIAGE_RETURN]))
    by (simpl; rewrite length_app; simpl; lia).
  replace (MLLP_START_BLOCK :: p ++ MLLP_END_BLOCK :: MLLP_CARRIAGE_RETURN :: b)
    with ((MLLP_START_BLOCK :: p ++ [MLLP_END_BLOCK; MLLP_CARRIAGE_RETURN]) ++ b)
    by (simpl; rewrite <- app_assoc; reflexivity).
  rewrite split_to_app, split_to_one.
  replace (List.length (p ++ [MLLP_END_BLOCK; MLLP_CARRIAGE_RETURN]) <? 2) with false
    by (symmetry; apply Nat.ltb_ge; rewrite length_app; simpl; lia).
  replace (List.length (p ++ [MLLP_END_BLOCK; MLLP_CARRIAGE_RETURN]) - 2) with (List.length p)
    by (rewrite length_app; simpl; lia).
  rewrite split_to_app. reflexivity.
Qed.

Lemma position_start l k :
  position (fun b => Byte.eqb b MLLP_START_BLOCK) l = Some k ->
  exists pre post, l = pre ++ MLLP_START_BLOCK :: post /\ List.length pre = k /\
                   ~ In MLLP_START_BLOCK pre.
Proof.
  revert k; induction l as [|x l IH]; intros k H; [discriminate|].
  simpl in H. destruct (Byte.eqb x MLLP_START_BLOCK) eqn:Ex.
  - injection H as <-. apply byte_dec_bl in Ex. subst x.
    exists [], l. repeat split. intros [].
  - destruct (position _ l) as [k'|] eqn:E; [|discriminate]. injection H as <-.
    destruct (IH k' eq_refl) as (pre & post & Hl & Hk & Hn).
    exists (x :: pre), post. rewrite Hl. repeat split; [simpl; congruence|].
    intros [Hx|Hx]; [|contradiction].
    subst x. rewrite (byte_dec_lb eq_refl) in Ex. discriminate.
Qed.

Lemma position_at_start l :
  position (fun b => Byte.eqb b MLLP_START_BLOCK) (MLLP_START_BLOCK :: l) = Some 0.
Proof. reflexivity. Qed.

Lemma position_from_first_start l :
  from_first_start l =
  match position (fun b => Byte.eqb b MLLP_START_BLOCK) l with
  | Some k => Some (skipn k l)
  | None => None
  end.
Proof.
  induction l as [|x l IH]; [reflexivity|]. simpl.
  destruct (Byte.eqb x MLLP_START_BLOCK); [reflexivity|].
  rewrite IH. destruct (position _ l); reflexivity.
Qed.

(** [decode] with the [split_to] of the noise written out. *)
Lemma decode_unfold src :
  decode src =
  match position (fun b => Byte.eqb b MLLP_START_BLOCK) src with
  | Some k =>
      match end_position (skipn k src) with
      | Some e => extract_frame (skipn k src) e
      | None => no_frame (skipn k src)
      end
  | None => no_frame src
  end.
Proof.
  unfold decode.
  destruct (position _ src) as [k|] eqn:E; [|reflexivity].
  destruct (position_start src k E) as (pre & post & Hl & Hk & _).
  destruct (0 <? k) eqn:Hk0.
  - unfold split_to.
    replace (k <=? List.length src) with true
      by (symmetry; apply Nat.leb_le; subst; rewrite length_app; simpl; lia).
    reflexivity.
  - apply Nat.ltb_ge in Hk0. replace k with 0 by lia. reflexivity.
Qed.

Lemma skipn_at_start pre post :
  skipn (List.length pre) (pre ++ MLLP_START_BLOCK :: post) = MLLP_START_BLOCK :: post.
Proof. rewrite <- (Nat.add_0_r (List.length pre)), skipn_len_app. reflexivity. Qed.

Lemma frame_has_end src : completed_frame src -> In MLLP_END_BLOCK src.
Proof.
  intros (noise & p & rest & ->).
  apply in_or_app. right. simpl. right. apply in_or_app. right. left. reflexivity.
Qed.

End MllpFacts.

(** ** Claims on the MLLP decoder *)
Module MllpClaims.
Import Byte Mllp Frames MllpFacts Samples.

(** C4: a payload without an FS CR window, framed by [encode] into an empty
    buffer, is returned whole by [decode], which leaves the buffer empty. *)
Theorem decode_encode_roundtrip P :
  contains_fs_cr P = false ->
  decode (snd (encode P [])) = (Ok (Some P), []).
Proof.
  intros H.
  change (snd (encode P []))
    with ((MLLP_START_BLOCK :: P) ++ MLLP_END_BLOCK :: MLLP_CARRIAGE_RETURN :: []).
  rewrite decode_unfold. cbn [app]. rewrite position_at_start. cbn [skipn].
  rewrite end_position_frame by exact H. apply extract_frame_ok.
Qed.

(** Witness of C4: a one-segment payload. *)
Lemma decode_encode_roundtrip_witness :
  contains_fs_cr [x4d; x53; x48; x0d; x1c; x41] = false /\
  decode (snd (encode [x4d; x53; x48; x0d; x1c; x41] [])) = (Ok (Some [x4d; x53; x48; x0d; x1c; x41]), []).
Proof.
  split; [reflexivity|].
  apply decode_encode_roundtrip. reflexivity.
Defined.

(** C6 (amended): on a buffer holding no completed frame, [decode] first
    drops the bytes before the first start block (none when there is no start
    block) and then fails with an invalid-frame error exactly when what is
    left exceeds 100000 bytes; otherwise it asks for more data. *)
Theorem decode_without_frame src :
  ~ completed_frame src ->
  decode src =
  ((if (100000 <? N.of_nat (List.length (retained src)))%N
    then Err (InvalidFrame "Buffer exceeds maximum size without valid frame")
    else Ok None),
   retained src).
Proof.
  intros Hnf. unfold retained. rewrite position_from_first_start, decode_unfold.
  destruct (position _ src) as [k|] eqn:E; rewrite ?E;
    [|unfold no_frame; destruct (100000 <? _)%N; reflexivity].
  destruct (position_start src k E) as (pre & post & Hl & Hk & _).
  destruct (end_position (skipn k src)) as [e|] eqn:Ee;
    [|unfold no_frame; destruct (100000 <? _)%N; reflexivity].
  exfalso. apply Hnf.
  destruct (end_position_some _ _ Ee) as (a & b & Hab & _ & _).
  rewrite Hl, <- Hk, skipn_at_start in Hab.
  destruct a as [|x p]; [discriminate|].
  injection Hab as <- Hpost.
  exists pre, p, b. rewrite Hl, Hpost. reflexivity.
Qed.

(** Witness of C6 (amended): noise, a start block and no end. *)
Lemma decode_without_frame_witness :
  decode [x00; x0b; x41] = (Ok None, [x0b; x41]).
Proof.
  rewrite (decode_without_frame [x00; x0b; x41]).
  - reflexivity.
  - intros Hf. apply frame_has_end in Hf. simpl in Hf. intuition discriminate.
Defined.

(** C6 (counterexample): that buffer has no completed frame and exceeds
    100000 bytes, yet [decode] asks for more data instead of failing. *)
Lemma decode_large_buffer_more_data :
  ~ completed_frame far_start /\
  (100000 < N.of_nat (List.length far_start))%N /\
  fst (decode far_start) = Ok None.
Proof.
  split; [|split].
  - intros Hf. apply frame_has_end in Hf.
    assert (Hx : existsb (Byte.eqb MLLP_END_BLOCK) far_start = true).
    { apply existsb_exists. exists MLLP_END_BLOCK. split; [exact Hf|reflexivity]. }
    vm_compute in Hx. discriminate.
  - vm_compute. reflexivity.
  - vm_compute. reflexivity.
Qed.

(** C9 (amended): every payload [decode] emits lies between the first start
    block of the buffer and the first FS CR after it, and holds no FS CR
    window; the bytes before that start block hold no start block. *)
Theorem decode_payload_shape src p rest :
  decode src = (Ok (Some p), rest) ->
  exists noise,
    src = noise ++ [MLLP_START_BLOCK] ++ p ++ [MLLP_END_BLOCK; MLLP_CARRIAGE_RETURN] ++ rest /\
    ~ In MLLP_START_BLOCK noise /\
    contains_fs_cr p = false.
Proof.
  rewrite decode_unfold. unfold no_frame.
  destruct (position _ src) as [k|] eqn:E;
    [|destruct (100000 <? _)%N; discriminate].
  destruct (position_start src k E) as (pre & post & Hl & Hk & Hn).
  rewrite Hl, <- Hk, skipn_at_start.
  destruct (end_position (MLLP_START_BLOCK :: post)) as [e|] eqn:Ee;
    [|destruct (100000 <? _)%N; discriminate].
  destruct (end_position_some _ _ Ee) as (a & b & Hab & Ha & Hc).
  destruct a as [|x q]; [discriminate|].
  injection Hab as <- Hpost. subst e post.
  rewrite extract_frame_ok. intros Hr. injection Hr as <- <-.
  exists pre. split; [|split].
  - reflexivity.
  - exact Hn.
  - rewrite contains_fs_cr_start in Hc. exact Hc.
Qed.

(** Witness of C9 (amended): noise, a frame and the start of the next one. *)
Lemma decode_payload_shape_witness :
  decode [x00; x0b; x41; x1c; x0d; x0b] = (Ok (Some [x41]), [x0b]) /\
  exists noise,
    [x00; x0b; x41; x1c; x0d; x0b] =
      noise ++ [MLLP_START_BLOCK] ++ [x41] ++ [MLLP_END_BLOCK; MLLP_CARRIAGE_RETURN] ++ [x0b] /\
    ~ In MLLP_START_BLOCK noise /\
    contains_fs_cr [x41] = false.
Proof.
  split; [reflexivity|].
  apply (decode_payload_shape [x00; x0b; x41; x1c; x0d; x0b] [x41] [x0b]).
  reflexivity.
Defined.

(** C9 (counterexample): a payload may start with VT, or end with FS. *)
Lemma decode_payload_vt_first_or_fs_last :
  decode [x0b; x0b; x1c; x0d] = (Ok (Some [x0b]), []) /\
  decode [x0b; x1c; x1c; x0d] = (Ok (Some [x1c]), []).
Proof. split; reflexivity. Qed.

End MllpClaims.

(** ** Claim on the error acknowledgment *)
Module AckClaims.
Local Open Scope string_scope.
Import Str StrFacts Ack.

Lemma string_app_assoc (x y z : string) : (x ++ y) ++ z = x ++ (y ++ z).
Proof. induction x as [|a x IH]; simpl; [reflexivity|]. rewrite IH. reflexivity. Qed.

Lemma strip_cr_suffix_chars d s :
  contains_char d (strip_cr_suffix s) = true -> contains_char d s = true.
Proof.
  induction s as [|c s IH]; [exact (fun H => H)|].
  destruct s as [|c' s'].
  - simpl. destruct (Ascii.eqb c CR); simpl; auto; discriminate.
  - change (strip_cr_suffix (String c (String c' s')))
      with (String c (strip_cr_suffix (String c' s'))).
    change (contains_char d (String c (strip_cr_suffix (String c' s'))))
      with (Ascii.eqb c d || contains_char d (strip_cr_suffix (String c' s'))).
    change (contains_char d (String c (String c' s')))
      with (Ascii.eqb c d || contains_char d (String c' s')).
    intros H. apply orb_true_iff in H as [H|H].
    + rewrite H. reflexivity.
    + rewrite (IH H). apply orb_true_r.
Qed.

Lemma lines_first_no_lf s l :
  lines_first s = Some l -> contains_char LF l = false.
Proof.
  destruct s as [|c s']; [discriminate|].
  unfold lines_first.
  assert (Hin : In (hd EmptyString (split_char LF (String c s'))) (split_char LF (String c s'))).
  { pose proof (split_char_nonempty LF (String c s')) as Hne.
    destruct (split_char LF (String c s')); [congruence|left; reflexivity]. }
  destruct (split_char_piece _ _ _ Hin) as [Hno _].
  destruct (contains_char LF (String c s')); intros Hl; injection Hl as <-.
  - destruct (contains_char LF (strip_cr_suffix _)) eqn:E; [|reflexivity].
    apply strip_cr_suffix_chars in E. simpl in Hno, E. congruence.
  - exact Hno.
Qed.

(** The control id holds no field separator and no LF. *)
Lemma nack_control_id_clean orig :
  contains_char "|"%char (nack_control_id orig) = false /\
  contains_char LF (nack_control_id orig) = false.
Proof.
  unfold nack_control_id.
  destruct (lines_first orig) as [l|] eqn:El; [|split; reflexivity].
  destruct (nth_error (split_char "|"%char l) 9) as [t|] eqn:Et; [|split; reflexivity].
  apply nth_error_In in Et. destruct (split_char_piece _ _ _ Et) as [H1 H2].
  split; [exact H1|].
  destruct (contains_char LF t) eqn:E; [|reflexivity].
  apply H2 in E. rewrite (lines_first_no_lf _ _ El) in E. discriminate.
Qed.

(** C7: the error acknowledgment built for [orig] is an MSH segment, CR LF,
    and [MSA|AE|{CTRL}|Error processing message: {REASON}], where {CTRL} is
    the 10th [|]-token of the first line of [orig] ([UNKNOWN] when there is
    none); {CTRL} is also MSH-10 of the acknowledgment, whose MSH-9 is ACK.
    The timestamp is assumed free of [|] and LF (it is 14 digits). *)
Theorem nack_control_id_placement now orig err :
  contains_char "|"%char now = false ->
  contains_char LF now = false ->
  let ctrl := match lines_first orig with
              | Some l =>
                  match nth_error (split_char "|"%char l) 9 with
                  | Some t => t
                  | None => "UNKNOWN"
                  end
              | None => "UNKNOWN"
              end in
  exists msh,
    generate_nack now orig err
    = Ok (msh ++ CRLF ++ "MSA|AE|" ++ ctrl ++ "|Error processing message: " ++ err) /\
    contains_char LF msh = false /\
    nth_error (split_char "|"%char msh) 8 = Some "ACK" /\
    nth_error (split_char "|"%char msh) 9 = Some ctrl /\
    nth_error (split_char "|"%char ("MSA|AE|" ++ ctrl ++ "|Error processing message: " ++ err)) 2
    = Some ctrl.
Proof.
  intros Hp HL ctrl.
  assert (Hc : nack_control_id orig = ctrl) by reflexivity.
  destruct (nack_control_id_clean orig) as [Hcp HcL]. rewrite Hc in Hcp, HcL.
  unfold generate_nack. rewrite Hc. clearbody ctrl.
  exists ("MSH|^~\&|RECEIVING_APP|RECEIVING_FACILITY|SENDING_APP|SENDING_FACILITY|"
          ++ now ++ "||ACK|" ++ ctrl ++ "|P|2.5").
  split; [|split; [|split; [|split]]].
  - f_equal. repeat (simpl; rewrite string_app_assoc). reflexivity.
  - rewrite !contains_char_app, HL, HcL. reflexivity.
  - change ("MSH|^~\&|RECEIVING_APP|RECEIVING_FACILITY|SENDING_APP|SENDING_FACILITY|"
            ++ now ++ "||ACK|" ++ ctrl ++ "|P|2.5")
      with ("MSH|^~\&|RECEIVING_APP|RECEIVING_FACILITY|SENDING_APP|SENDING_FACILITY"
            ++ String "|" (now ++ String "|" ("" ++ String "|"
            ("ACK" ++ String "|" (ctrl ++ String "|" "P|2.5"))))).
    rewrite !split_char_app_sep, (split_char_no_sep _ now Hp), (split_char_no_sep _ ctrl Hcp).
    reflexivity.
  - change ("MSH|^~\&|RECEIVING_APP|RECEIVING_FACILITY|SENDING_APP|SENDING_FACILITY|"
            ++ now ++ "||ACK|" ++ ctrl ++ "|P|2.5")
      with ("MSH|^~\&|RECEIVING_APP|RECEIVING_FACILITY|SENDING_APP|SENDING_FACILITY"
            ++ String "|" (now ++ String "|" ("" ++ String "|"
            ("ACK" ++ String "|" (ctrl ++ String "|" "P|2.5"))))).
    rewrite !split_char_app_sep, (split_char_no_sep _ now Hp), (split_char_no_sep _ ctrl Hcp).
    reflexivity.
  - change ("MSA|AE|" ++ ctrl ++ "|Error processing message: " ++ err)
      with ("MSA|AE" ++ String "|" (ctrl ++ String "|" ("Error processing message: " ++ err))).
    rewrite !split_char_app_sep, (split_char_no_sep _ ctrl Hcp).
    reflexivity.
Qed.

(** Witness of C7: the repository's ADT test message and a parse failure. *)
Lemma nack_control_id_placement_witness :
  contains_char "|"%char "20230401123000" = false /\
  contains_char LF "20230401123000" = false /\
  exists msh,
    generate_nack "20230401123000" Samples.adt_a04 "First segment must be MSH"
    = Ok (msh ++ CRLF ++ "MSA|AE|" ++ "CTRL7" ++ "|Error processing message: "
          ++ "First segment must be MSH") /\
    contains_char LF msh = false /\
    nth_error (split_char "|"%char msh) 8 = Some "ACK" /\
    nth_error (split_char "|"%char msh) 9 = Some "CTRL7" /\
    nth_error (split_char "|"%char ("MSA|AE|" ++ "CTRL7" ++ "|Error processing message: "
                                    ++ "First segment must be MSH")) 2
    = Some "CTRL7".
Proof.
  split; [reflexivity|]. split; [reflexivity|].
  exact (nack_control_id_placement "20230401123000" Samples.adt_a04 "First segment must be MSH"
           eq_refl eq_refl).
Defined.

End AckClaims.

(** ** Claim on the RDE projection *)
Module RdeClaims.
Local Open Scope string_scope.
Import Str Hl7 Rde.

Lemma medication_orders_from_length m k l :
  List.length (medication_orders_from m k l) = List.length l.
Proof. revert k; induction l as [|x l IH]; intros k; simpl; [reflexivity|]. rewrite IH. reflexivity. Qed.

Lemma medication_orders_from_nth m k l i :
  nth_error (medication_orders_from m k l) i = option_map (medication_order m (k + i)) (nth_error l i).
Proof.
  revert k i; induction l as [|x l IH]; intros k i; [destruct i; reflexivity|].
  destruct i as [|i]; simpl.
  - rewrite Nat.add_0_r. reflexivity.
  - rewrite IH. rewrite Nat.add_succ_r. reflexivity.
Qed.

Lemma from_hl7_orders m r :
  from_hl7 m = Ok r -> medication_orders r = medication_orders_from m 0 (get_segments m "RXE").
Proof.
  unfold from_hl7. destruct (negb (is_rde m)); [discriminate|].
  destruct (ok_or (get_segment m "PID") _) as [pid| |]; [|discriminate|discriminate].
  destruct (ok_or (field_first_value pid 2) _) as [pid3| |]; [|discriminate|discriminate].
  intros H. injection H as <-. reflexivity.
Qed.

(** C8 (amended): the orders of an accepted RDE message follow its RXE
    segments one to one; the i-th (from 1) has rx_id RX{i}, and its
    medication_id is the first component of the first field after the
    segment name of the i-th RXE segment, UNKNOWN when there is none. *)
Theorem rde_orders_by_index m r :
  from_hl7 m = Ok r ->
  List.length (medication_orders r) = List.length (get_segments m "RXE") /\
  forall i o,
    nth_error (medication_orders r) i = Some o ->
    exists rxe,
      nth_error (get_segments m "RXE") i = Some rxe /\
      rx_id o = "RX" ++ string_of_nat (S i) /\
      medication_id o = match fields rxe with
                        | f :: _ => match components f with
                                    | c :: _ => value c
                                    | [] => "UNKNOWN"
                                    end
                        | [] => "UNKNOWN"
                        end.
Proof.
  intros H. rewrite (from_hl7_orders m r H). split.
  - apply medication_orders_from_length.
  - intros i o Ho. rewrite medication_orders_from_nth in Ho.
    destruct (nth_error (get_segments m "RXE") i) as [rxe|]; [|discriminate].
    injection Ho as <-. exists rxe. split; [reflexivity|]. split.
    + simpl. rewrite Nat.add_1_r. reflexivity.
    + simpl. unfold field_first_value.
      destruct (fields rxe) as [|f fs]; [reflexivity|].
      simpl. destruct (components f); reflexivity.
Qed.

(** Witness of C8 (amended): the repository's RDE test message. *)
Lemma rde_orders_by_index_witness :
  match from_hl7 Samples.rde_test_msg with
  | Ok r =>
      List.length (medication_orders r) = List.length (get_segments Samples.rde_test_msg "RXE") /\
      forall i o,
        nth_error (medication_orders r) i = Some o ->
        exists rxe,
          nth_error (get_segments Samples.rde_test_msg "RXE") i = Some rxe /\
          rx_id o = "RX" ++ string_of_nat (S i) /\
          medication_id o = match fields rxe with
                            | f :: _ => match components f with
                                        | c :: _ => value c
                                        | [] => "UNKNOWN"
                                        end
                            | [] => "UNKNOWN"
                            end
  | _ => False
  end.
Proof.
  pose proof (rde_orders_by_index Samples.rde_test_msg) as H.
  destruct (from_hl7 Samples.rde_test_msg) as [r| |] eqn:E.
  - exact (H r eq_refl).
  - vm_compute in E. discriminate.
  - vm_compute in E. discriminate.
Defined.

End RdeClaims.

(** ** Further facts about the parser *)
Module ParserMoreFacts.
Local Open Scope string_scope.
Import Str StrFacts Hl7 ParserFacts Raw.

Lemma concat_push_char a l sep :
  l <> [] -> String.concat sep (push_char a l) = String a (String.concat sep l).
Proof. destruct l as [|x [|y ys]]; [congruence|reflexivity|reflexivity]. Qed.

Lemma concat_cons_nonempty sep x l :
  l <> [] -> String.concat sep (x :: l) = x ++ sep ++ String.concat sep l.
Proof. destruct l; [congruence|reflexivity]. Qed.

(** Joining the pieces of a split with the separator gives the input back. *)
Lemma split_char_join c s : String.concat (String c EmptyString) (split_char c s) = s.
Proof.
  induction s as [|a s IH]; [reflexivity|].
  cbn [split_char]. destruct (Ascii.eqb a c) eqn:E.
  - apply Ascii.eqb_eq in E. subst a.
    rewrite concat_cons_nonempty by apply split_char_nonempty. rewrite IH. reflexivity.
  - rewrite concat_push_char by apply split_char_nonempty. rewrite IH. reflexivity.
Qed.

Lemma split_crlf_join s : String.concat CRLF (split_crlf s) = s.
Proof.
  enough (H : forall s, String.concat CRLF (split_crlf s) = s /\
                        forall a, String.concat CRLF (split_crlf (String a s)) = String a s)
    by apply H.
  clear s. intros s. induction s as [|b t [IH1 IH2]].
  - split; [reflexivity|]. intros a. reflexivity.
  - split; [apply IH2|]. intros a.
    change (split_crlf (String a (String b t)))
      with (if Ascii.eqb a CR && Ascii.eqb b LF then EmptyString :: split_crlf t
            else push_char a (split_crlf (String b t))).
    destruct (Ascii.eqb a CR && Ascii.eqb b LF) eqn:E.
    + apply andb_true_iff in E as [E1 E2]. apply Ascii.eqb_eq in E1, E2. subst a b.
      rewrite concat_cons_nonempty by apply split_crlf_nonempty. rewrite IH1. reflexivity.
    + rewrite concat_push_char by apply split_crlf_nonempty. rewrite IH2. reflexivity.
Qed.

Lemma split_segments_join input :
  String.concat (segment_separator input) (split_segments input) = input.
Proof.
  unfold split_segments, segment_separator.
  destruct (contains_str CRLF input); [apply split_crlf_join|apply split_char_join].
Qed.

Lemma prefix_app p s t : String.prefix p s = true -> String.prefix p (s ++ t) = true.
Proof.
  revert s; induction p as [|a p IH]; intros [|b s] H.
  - destruct t; reflexivity.
  - reflexivity.
  - discriminate.
  - simpl in *. destruct (ascii_dec a b); [apply IH; exact H|discriminate].
Qed.

Lemma hd_push_char a l : hd EmptyString (push_char a l) = String a (hd EmptyString l).
Proof. destruct l; reflexivity. Qed.

Lemma split_char_cons_other c a s :
  Ascii.eqb a c = false -> split_char c (String a s) = push_char a (split_char c s).
Proof. intros H. cbn [split_char]. rewrite H. reflexivity. Qed.

Lemma split_crlf_cons_other a s :
  Ascii.eqb a CR = false -> split_crlf (String a s) = push_char a (split_crlf s).
Proof.
  intros H. destruct s as [|b s']; [reflexivity|].
  change (split_crlf (String a (String b s')))
    with (if Ascii.eqb a CR && Ascii.eqb b LF then EmptyString :: split_crlf s'
          else push_char a (split_crlf (String b s'))).
  rewrite H. reflexivity.
Qed.

Lemma prefix_msh_inv s :
  starts_with s "MSH" = true -> exists t, s = String "M" (String "S" (String "H" t)).
Proof.
  unfold starts_with. intros H.
  destruct s as [|a [|b [|c t]]]; cbn [String.prefix] in H;
    repeat (match type of H with context [ascii_dec ?x ?y] => destruct (ascii_dec x y) end);
    subst; try discriminate.
  exists t. reflexivity.
Qed.

(** The first segment starts with MSH exactly when the input does. *)
Lemma split_segments_msh input :
  starts_with (hd EmptyString (split_segments input)) "MSH" = starts_with input "MSH".
Proof.
  destruct (starts_with input "MSH") eqn:E2.
  - destruct (prefix_msh_inv input E2) as [t ->].
    unfold split_segments. destruct (contains_str CRLF _).
    + rewrite !split_crlf_cons_other by reflexivity. rewrite !hd_push_char.
      destruct (hd EmptyString _); reflexivity.
    + rewrite !split_char_cons_other by reflexivity. rewrite !hd_push_char.
      destruct (hd EmptyString _); reflexivity.
  - destruct (starts_with (hd EmptyString (split_segments input)) "MSH") eqn:E1; [|reflexivity].
    rewrite <- E2. rewrite <- (split_segments_join input).
    pose proof (split_segments_nonempty input) as Hne.
    destruct (split_segments input) as [|x [|y ys]]; [congruence| |].
    + symmetry. exact E1.
    + rewrite concat_cons_nonempty by discriminate. symmetry. apply prefix_app. exact E1.
Qed.

(** [Message::parse] in closed form. *)
Lemma parse_eq input :
  parse input =
  if starts_with (hd EmptyString (split_segments input)) "MSH" then
    Ok {| segments := map parsed_segment (split_segments input);
          message_type :=
            match extract_message_type (parsed_segment (hd EmptyString (split_segments input))) with
            | Some mt => mt
            | None => EmptyString
            end;
          version := "2.5" |}
  else Err (InvalidStructure "First segment must be MSH").
Proof.
  unfold parse. pose proof (split_segments_nonempty input) as Hne.
  destruct (split_segments input) as [|msh rest]; [congruence|].
  simpl hd. destruct (starts_with msh "MSH"); simpl negb; [|reflexivity].
  rewrite collect_parse_segments. reflexivity.
Qed.

Lemma parse_ok_inv input m :
  parse input = Ok m ->
  segments m = map parsed_segment (split_segments input) /\
  (message_type m = "ADT^A01" \/ message_type m = "ORU^R01" \/
   message_type m = "RDE^O11" \/ message_type m = "UNKNOWN") /\
  version m = "2.5".
Proof.
  rewrite parse_eq. destruct (starts_with _ "MSH"); [|discriminate].
  intros H. injection H as <-. simpl. split; [reflexivity|]. split; [|reflexivity].
  unfold extract_message_type.
  destruct (any_component_value _ "ADT"); [tauto|].
  destruct (any_component_value _ "ORU"); [tauto|].
  destruct (any_component_value _ "RDE"); tauto.
Qed.

Lemma parse_field_values t d :
  map value (components (parse_field t d)) = split_char (component d) t.
Proof.
  unfold parse_field. cbn [components].
  destruct (contains_char (component d) t) eqn:E.
  - rewrite map_map. apply map_id.
  - rewrite split_char_no_sep by exact E. reflexivity.
Qed.

Lemma parse_field_values_default t :
  map value (components (parse_field t default_delimiters)) = split_char "^"%char t.
Proof. apply parse_field_values. Qed.

Lemma field_text_parsed t : field_text (parse_field t default_delimiters) = t.
Proof. unfold field_text. rewrite parse_field_values_default. apply split_char_join. Qed.

Lemma segment_text_parsed line : segment_text (parsed_segment line) = line.
Proof.
  unfold segment_text, parsed_segment. cbn [name fields].
  rewrite map_map. rewrite (map_ext _ (fun t => t)) by apply field_text_parsed.
  rewrite map_id. pose proof (split_char_nonempty "|"%char line) as Hne.
  change (field default_delimiters) with "|"%char.
  rewrite <- (split_char_join "|"%char line) at 3.
  destruct (split_char "|"%char line); [congruence|reflexivity].
Qed.

Lemma find_map {A B : Type} (f : B -> bool) (g : A -> B) l :
  find f (map g l) = option_map g (find (fun x => f (g x)) l).
Proof. induction l as [|x l IH]; simpl; [reflexivity|]. destruct (f (g x)); auto. Qed.

Lemma filter_map {A B : Type} (f : B -> bool) (g : A -> B) l :
  filter f (map g l) = map g (filter (fun x => f (g x)) l).
Proof. induction l as [|x l IH]; simpl; [reflexivity|]. destruct (f (g x)); simpl; congruence. Qed.

Lemma get_segment_parsed input m nm :
  parse input = Ok m -> get_segment m nm = option_map parsed_segment (raw_line input nm).
Proof.
  intros H. destruct (parse_ok_inv input m H) as [Hs _].
  unfold get_segment, raw_line. rewrite Hs, find_map. reflexivity.
Qed.

Lemma get_segments_parsed input m nm :
  parse input = Ok m -> get_segments m nm = map parsed_segment (raw_lines input nm).
Proof.
  intros H. destruct (parse_ok_inv input m H) as [Hs _].
  unfold get_segments, raw_lines. rewrite Hs, filter_map. reflexivity.
Qed.

Lemma nth_error_tl {A : Type} (l : list A) i : nth_error (tl l) i = nth_error l (S i).
Proof. destruct l; [destruct i|]; reflexivity. Qed.

Lemma field_first_value_parsed line i :
  field_first_value (parsed_segment line) i = raw_component line (S i) 0.
Proof.
  unfold field_first_value, raw_component, parsed_segment. cbn [fields].
  rewrite nth_error_map, nth_error_tl.
  change (field default_delimiters) with "|"%char.
  destruct (nth_error (split_char "|"%char line) (S i)) as [t|]; [|reflexivity].
  cbn [option_map]. rewrite <- parse_field_values_default.
  destruct (components (parse_field t default_delimiters)); reflexivity.
Qed.

Lemma field_second_value_parsed line i :
  field_second_value (parsed_segment line) i = raw_component line (S i) 1.
Proof.
  unfold field_second_value, raw_component, parsed_segment. cbn [fields].
  rewrite nth_error_map, nth_error_tl.
  change (field default_delimiters) with "|"%char.
  destruct (nth_error (split_char "|"%char line) (S i)) as [t|]; [|reflexivity].
  cbn [option_map]. rewrite <- parse_field_values_default, nth_error_map. reflexivity.
Qed.

Lemma split_char_two c s : contains_char c s = true -> 2 <= List.length (split_char c s).
Proof.
  induction s as [|a s IH]; [discriminate|].
  cbn [contains_char split_char]. intros H.
  pose proof (split_char_nonempty c s) as Hne.
  destruct (Ascii.eqb a c).
  - cbn [List.length]. destruct (split_char c s); [congruence|cbn [List.length]; lia].
  - apply IH in H. destruct (split_char c s); [congruence|exact H].
Qed.

Lemma in_parse_field c t d :
  In c (components (parse_field t d)) ->
  exists u, c = parse_component u d /\ In u (split_char (component d) t).
Proof.
  unfold parse_field. cbn [components].
  destruct (contains_char (component d) t) eqn:E.
  - intros H. apply in_map_iff in H as (u & <- & Hu). exists u. auto.
  - intros [<-|[]]. exists t. rewrite split_char_no_sep by exact E. split; [reflexivity|left; reflexivity].
Qed.

End ParserMoreFacts.

(** ** Properties of [Message::parse] and the segment lookups *)
Module ParserExtras.
Local Open Scope string_scope.
Import Str StrFacts Hl7 ParserFacts ParserMoreFacts Raw.

(** [Message::parse] succeeds exactly on the inputs that start with MSH;
    its only error is [InvalidStructure "First segment must be MSH"]. *)
Theorem parse_outcome input :
  match parse input with
  | Ok _ => starts_with input "MSH" = true
  | Err e => starts_with input "MSH" = false /\ e = InvalidStructure "First segment must be MSH"
  | Panic => False
  end.
Proof.
  rewrite parse_eq, split_segments_msh.
  destruct (starts_with input "MSH"); [reflexivity|split; reflexivity].
Qed.

(** Parsing loses no text: writing each parsed segment back (name and
    fields joined by [|], components by [^]) and joining the segments with
    the separator the parser chose gives the input back. *)
Theorem parse_lossless input m :
  parse input = Ok m ->
  String.concat (segment_separator input) (map segment_text (segments m)) = input.
Proof.
  intros H. destruct (parse_ok_inv input m H) as [Hs _]. rewrite Hs, map_map.
  rewrite (map_ext _ (fun l => l)) by apply segment_text_parsed.
  rewrite map_id. apply split_segments_join.
Qed.

(** Every field of a parsed message has at least one component; no
    component value holds a [|] or a [^]; a component's subcomponents are
    empty when its value has no [&], and otherwise are at least two pieces
    that, joined by [&], give the value back. *)
Theorem parse_field_structure input m :
  parse input = Ok m ->
  forall s f, In s (segments m) -> In f (fields s) ->
    components f <> [] /\
    forall c, In c (components f) ->
      contains_char "|"%char (value c) = false /\
      contains_char "^"%char (value c) = false /\
      ((subcomponents c = [] /\ contains_char "&"%char (value c) = false) \/
       (2 <= List.length (subcomponents c) /\ String.concat "&" (subcomponents c) = value c)).
Proof.
  intros H s f Hs Hf. destruct (parse_ok_inv input m H) as [Hseg _]. rewrite Hseg in Hs.
  apply in_map_iff in Hs as (line & <- & _).
  unfold parsed_segment in Hf. cbn [fields] in Hf.
  apply in_map_iff in Hf as (t & <- & Ht).
  change (field default_delimiters) with "|"%char in Ht.
  assert (Ht' : In t (split_char "|"%char line)).
  { destruct (split_char "|"%char line); [destruct Ht|right; exact Ht]. }
  destruct (split_char_piece _ _ _ Ht') as [Htbar _].
  split.
  - intros Hc. pose proof (parse_field_values_default t) as Hv. rewrite Hc in Hv.
    apply (split_char_nonempty "^"%char t). symmetry. exact Hv.
  - intros c Hc. destruct (in_parse_field c t _ Hc) as (u & -> & Hu).
    change (component default_delimiters) with "^"%char in Hu.
    destruct (split_char_piece _ _ _ Hu) as [Hucaret Hsub].
    unfold parse_component. cbn [value subcomponents].
    change (subcomponent default_delimiters) with "&"%char.
    split; [|split; [exact Hucaret|]].
    + destruct (contains_char "|"%char u) eqn:E; [|reflexivity].
      rewrite (Hsub _ E) in Htbar. discriminate.
    + destruct (contains_char "&"%char u) eqn:E.
      * right. split; [apply split_char_two; exact E|apply split_char_join].
      * left. split; reflexivity.
Qed.

(** Witness: the ADT sample. *)
Lemma parse_field_structure_witness :
  match parse Samples.adt_a04 with
  | Ok m =>
      forall s f, In s (segments m) -> In f (fields s) ->
        components f <> [] /\
        forall c, In c (components f) ->
          contains_char "|"%char (value c) = false /\
          contains_char "^"%char (value c) = false /\
          ((subcomponents c = [] /\ contains_char "&"%char (value c) = false) \/
           (2 <= List.length (subcomponents c) /\ String.concat "&" (subcomponents c) = value c))
  | _ => False
  end.
Proof.
  pose proof (parse_field_structure Samples.adt_a04) as H.
  destruct (parse Samples.adt_a04) as [m| |] eqn:E.
  - exact (H m eq_refl).
  - vm_compute in E. discriminate.
  - vm_compute in E. discriminate.
Defined.

(** Witness: the ADT sample. *)
Lemma parse_lossless_witness :
  match parse Samples.adt_a04 with
  | Ok m => String.concat (segment_separator Samples.adt_a04) (map segment_text (segments m))
            = Samples.adt_a04
  | _ => False
  end.
Proof.
  pose proof (parse_lossless Samples.adt_a04) as H.
  destruct (parse Samples.adt_a04) as [m| |] eqn:E.
  - exact (H m eq_refl).
  - vm_compute in E. discriminate.
  - vm_compute in E. discriminate.
Defined.

(** [get_segment] returns the first of the segments [get_segments]
    returns, and [None] when there is none. *)
Theorem get_segment_first m nm : get_segment m nm = hd_error (get_segments m nm).
Proof.
  unfold get_segment, get_segments. induction (segments m) as [|s l IH]; [reflexivity|].
  cbn [find filter]. destruct (String.eqb (name s) nm); [reflexivity|exact IH].
Qed.

End ParserExtras.

(** ** Facts about the typed projections *)
Module TypedFacts.
Local Open Scope string_scope.
Import Str StrFacts Hl7 ParserFacts ParserMoreFacts Raw.

Lemma parsed_type_adt input m :
  parse input = Ok m -> is_adt m = true -> message_type m = "ADT^A01".
Proof.
  intros H Ha. destruct (parse_ok_inv input m H) as (_ & Ht & _). unfold is_adt in Ha.
  destruct Ht as [E|[E|[E|E]]]; rewrite E in Ha |- *; vm_compute in Ha; congruence.
Qed.

Lemma raw_component_first_none line i :
  raw_component line i 0 = None <-> List.length (split_char "|"%char line) <= i.
Proof.
  unfold raw_component. rewrite <- nth_error_None.
  destruct (nth_error (split_char "|"%char line) i) as [t|]; [|tauto].
  pose proof (split_char_nonempty "^"%char t) as Hne.
  destruct (split_char "^"%char t); [congruence|]. split; discriminate.
Qed.

Lemma observation_ok x o :
  Oru.observation x = Ok o ->
  field_first_value x 2 = Some (Oru.test_id o) /\
  Oru.test_name o = field_second_value x 2 /\
  Oru.obs_value o = field_first_value x 4 /\
  Oru.units o = field_first_value x 5 /\
  Oru.reference_range o = field_first_value x 6 /\
  Oru.abnormal_flags o = field_first_value x 7.
Proof.
  unfold Oru.observation. destruct (field_first_value x 2) eqn:E; cbn [ok_or]; [|discriminate].
  intros H. injection H as <-. cbn. repeat split; reflexivity.
Qed.

Lemma observations_loop_ok obxs acc obs :
  Oru.observations_loop obxs acc = Ok obs ->
  exists os, obs = (acc ++ os)%list /\ Forall2 (fun x o => Oru.observation x = Ok o) obxs os.
Proof.
  revert acc; induction obxs as [|x rest IH]; intros acc H.
  - cbn in H. injection H as <-. exists []. rewrite app_nil_r. split; [reflexivity|constructor].
  - cbn [Oru.observations_loop] in H. destruct (Oru.observation x) as [o| |] eqn:E; try discriminate.
    destruct (IH _ H) as (os & -> & HF). exists (o :: os).
    rewrite <- app_assoc. split; [reflexivity|constructor; assumption].
Qed.


Lemma Forall2_nth_error_r {A B : Type} (R : A -> B -> Prop) l1 l2 i y :
  Forall2 R l1 l2 -> nth_error l2 i = Some y -> exists x, nth_error l1 i = Some x /\ R x y.
Proof.
  intros HF; revert i; induction HF as [|a b l1 l2 Hab HF IH]; intros i H.
  - destruct i; discriminate.
  - destruct i as [|i]; cbn in H |- *.
    + injection H as <-. exists a. auto.
    + apply IH. exact H.
Qed.

Lemma prefix_first_char s a p b q :
  starts_with s (String a p) = true -> starts_with s (String b q) = true -> a = b.
Proof.
  unfold starts_with. destruct s as [|c s]; cbn [String.prefix]; [discriminate|].
  destruct (ascii_dec a c) as [->|]; [|discriminate].
  destruct (ascii_dec b c) as [->|]; [reflexivity|discriminate].
Qed.

End TypedFacts.

(** ** Properties of the typed projections *)
Module TypedExtras.
Local Open Scope string_scope.
Import Str StrFacts Hl7 ParserFacts ParserMoreFacts Raw TypedFacts.

(** On a parsed message, [AdtMessage::from_hl7] reads the first line named
    PID: patient_id is the text of PID.3 up to its first [^], date of birth
    and gender those of PID.7 and PID.8; the message type is always
    ADT^A01 and the event type A01. *)
Theorem adt_fields_from_text input m a :
  parse input = Ok m -> Adt.from_hl7 m = Ok a ->
  exists line, raw_line input "PID" = Some line /\
    raw_component line 3 0 = Some (Adt.patient_id a) /\
    Adt.date_of_birth a = raw_component line 7 0 /\
    Adt.gender a = raw_component line 8 0 /\
    Adt.adt_message_type a = "ADT^A01" /\
    Adt.event_type a = "A01".
Proof.
  intros Hp Ha. unfold Adt.from_hl7 in Ha.
  destruct (is_adt m) eqn:Eadt; [|discriminate]. cbn [negb] in Ha.
  pose proof (parsed_type_adt _ _ Hp Eadt) as Et.
  rewrite (get_segment_parsed _ _ _ Hp) in Ha.
  destruct (raw_line input "PID") as [line|] eqn:El; [|discriminate].
  cbn [option_map ok_or] in Ha. rewrite field_first_value_parsed in Ha.
  destruct (raw_component line 3 0) as [id|] eqn:Ec; [|discriminate].
  cbn [ok_or] in Ha. injection Ha as <-. exists line.
  cbn [Adt.patient_id Adt.date_of_birth Adt.gender Adt.adt_message_type Adt.event_type].
  rewrite !field_first_value_parsed, Et, Ec. repeat split; reflexivity.
Qed.

(** Witness: the ADT sample, whose PID line is PID|1||777^^^MRN||SMITH^ANNE||19700101|F. *)
Lemma adt_fields_from_text_witness :
  match parse Samples.adt_a04 with
  | Ok m =>
      match Adt.from_hl7 m with
      | Ok a =>
          exists line, raw_line Samples.adt_a04 "PID" = Some line /\
            raw_component line 3 0 = Some (Adt.patient_id a) /\
            Adt.date_of_birth a = raw_component line 7 0 /\
            Adt.gender a = raw_component line 8 0 /\
            Adt.adt_message_type a = "ADT^A01" /\
            Adt.event_type a = "A01"
      | _ => False
      end
  | _ => False
  end.
Proof.
  pose proof (adt_fields_from_text Samples.adt_a04) as H.
  destruct (parse Samples.adt_a04) as [m| |] eqn:E1; [|vm_compute in E1; discriminate..].
  destruct (Adt.from_hl7 m) as [a| |] eqn:E2.
  - exact (H m a eq_refl E2).
  - vm_compute in E1. injection E1 as <-. vm_compute in E2. discriminate.
  - vm_compute in E1. injection E1 as <-. vm_compute in E2. discriminate.
Defined.

(** On a parsed ADT message, [AdtMessage::from_hl7] succeeds exactly when
    the first line named PID has at least three fields; otherwise it fails
    with MissingField "PID segment" (no PID line) or MissingField
    "Patient ID (PID.3)" (a PID line with fewer fields). *)
Theorem adt_accepts_text input m :
  parse input = Ok m -> is_adt m = true ->
  match Adt.from_hl7 m with
  | Ok _ => exists line, raw_line input "PID" = Some line /\
                         4 <= List.length (split_char "|"%char line)
  | Err e => (raw_line input "PID" = None /\ e = MissingField "PID segment") \/
             (exists line, raw_line input "PID" = Some line /\
                           List.length (split_char "|"%char line) <= 3 /\
                           e = MissingField "Patient ID (PID.3)")
  | Panic => False
  end.
Proof.
  intros Hp Eadt. unfold Adt.from_hl7. rewrite Eadt. cbn [negb].
  rewrite (get_segment_parsed _ _ _ Hp).
  destruct (raw_line input "PID") as [line|] eqn:El.
  - cbn [option_map ok_or]. rewrite field_first_value_parsed.
    destruct (raw_component line 3 0) as [id|] eqn:Ec; cbn [ok_or].
    + exists line. split; [reflexivity|].
      destruct (Nat.le_gt_cases (List.length (split_char "|"%char line)) 3) as [Hl|Hl]; [|lia].
      apply raw_component_first_none in Hl. congruence.
    + right. exists line. split; [reflexivity|]. split; [|reflexivity].
      apply raw_component_first_none. exact Ec.
  - cbn. left. split; reflexivity.
Qed.

(** Witness: the ADT sample. *)
Lemma adt_accepts_text_witness :
  match parse Samples.adt_a04 with
  | Ok m =>
      is_adt m = true /\
      match Adt.from_hl7 m with
      | Ok _ => exists line, raw_line Samples.adt_a04 "PID" = Some line /\
                             4 <= List.length (split_char "|"%char line)
      | Err e => (raw_line Samples.adt_a04 "PID" = None /\ e = MissingField "PID segment") \/
                 (exists line, raw_line Samples.adt_a04 "PID" = Some line /\
                               List.length (split_char "|"%char line) <= 3 /\
                               e = MissingField "Patient ID (PID.3)")
      | Panic => False
      end
  | _ => False
  end.
Proof.
  pose proof (adt_accepts_text Samples.adt_a04) as H.
  destruct (parse Samples.adt_a04) as [m| |] eqn:E1; [|vm_compute in E1; discriminate..].
  assert (Ea : is_adt m = true) by (vm_compute in E1; injection E1 as <-; vm_compute; reflexivity).
  split; [exact Ea|exact (H m eq_refl Ea)].
Defined.

(** On a parsed message, [OruMessage::from_hl7] gives one observation per
    line named OBX, in order; the i-th reads the i-th OBX line: test_id is
    the text of OBX.3 up to its first [^], test_name the second piece of
    OBX.3, value, units, reference range and abnormal flags the first
    pieces of OBX.5 to OBX.8. *)
Theorem oru_observations_from_text input m o :
  parse input = Ok m -> Oru.from_hl7 m = Ok o ->
  List.length (Oru.observations o) = List.length (raw_lines input "OBX") /\
  forall i ob, nth_error (Oru.observations o) i = Some ob ->
    exists line, nth_error (raw_lines input "OBX") i = Some line /\
      raw_component line 3 0 = Some (Oru.test_id ob) /\
      Oru.test_name ob = raw_component line 3 1 /\
      Oru.obs_value ob = raw_component line 5 0 /\
      Oru.units ob = raw_component line 6 0 /\
      Oru.reference_range ob = raw_component line 7 0 /\
      Oru.abnormal_flags ob = raw_component line 8 0.
Proof.
  intros Hp Ho. unfold Oru.from_hl7 in Ho.
  destruct (negb (is_oru m)); [discriminate|].
  destruct (get_segment m "PID") as [pid|]; cbn [ok_or] in Ho; [|discriminate].
  destruct (field_first_value pid 2); cbn [ok_or] in Ho; [|discriminate].
  destruct (Oru.observations_loop (get_segments m "OBX") []) as [obs| |] eqn:El;
    try discriminate.
  injection Ho as <-. cbn [Oru.observations].
  apply observations_loop_ok in El as (os & -> & HF). cbn [app].
  rewrite (get_segments_parsed _ _ _ Hp) in HF.
  split.
  - apply Forall2_length in HF. rewrite length_map in HF. symmetry. exact HF.
  - intros i ob Hi. destruct (Forall2_nth_error_r _ _ _ _ _ HF Hi) as (x & Hx & Hob).
    rewrite nth_error_map in Hx.
    destruct (nth_error (raw_lines input "OBX") i) as [line|]; [|discriminate].
    injection Hx as <-. exists line. split; [reflexivity|].
    apply observation_ok in Hob.
    rewrite !field_first_value_parsed, field_second_value_parsed in Hob. exact Hob.
Qed.

(** Witness: the ORU demo message with two OBX lines. *)
Lemma oru_observations_from_text_witness :
  match parse Samples.oru_demo with
  | Ok m =>
      match Oru.from_hl7 m with
      | Ok o =>
          List.length (Oru.observations o) = List.length (raw_lines Samples.oru_demo "OBX") /\
          forall i ob, nth_error (Oru.observations o) i = Some ob ->
            exists line, nth_error (raw_lines Samples.oru_demo "OBX") i = Some line /\
              raw_component line 3 0 = Some (Oru.test_id ob) /\
              Oru.test_name ob = raw_component line 3 1 /\
              Oru.obs_value ob = raw_component line 5 0 /\
              Oru.units ob = raw_component line 6 0 /\
              Oru.reference_range ob = raw_component line 7 0 /\
              Oru.abnormal_flags ob = raw_component line 8 0
      | _ => False
      end
  | _ => False
  end.
Proof.
  pose proof (oru_observations_from_text Samples.oru_demo) as H.
  destruct (parse Samples.oru_demo) as [m| |] eqn:E1; [|vm_compute in E1; discriminate..].
  destruct (Oru.from_hl7 m) as [o| |] eqn:E2.
  - exact (H m o eq_refl E2).
  - vm_compute in E1. injection E1 as <-. vm_compute in E2. discriminate.
  - vm_compute in E1. injection E1 as <-. vm_compute in E2. discriminate.
Defined.



(** A message is accepted by at most one of [AdtMessage::from_hl7],
    [OruMessage::from_hl7] and [RdeMessage::from_hl7]: when one accepts it,
    the other two reject it as not of their type. *)
Theorem typed_projections_exclusive m :
  ((exists a, Adt.from_hl7 m = Ok a) ->
     Oru.from_hl7 m = Err (InvalidStructure "Not an ORU message") /\
     Rde.from_hl7 m = Err (InvalidStructure "Not an RDE message")) /\
  ((exists o, Oru.from_hl7 m = Ok o) ->
     Adt.from_hl7 m = Err (InvalidStructure "Not an ADT message") /\
     Rde.from_hl7 m = Err (InvalidStructure "Not an RDE message")) /\
  ((exists r, Rde.from_hl7 m = Ok r) ->
     Adt.from_hl7 m = Err (InvalidStructure "Not an ADT message") /\
     Oru.from_hl7 m = Err (InvalidStructure "Not an ORU message")).
Proof.
  assert (Hadt : forall a, Adt.from_hl7 m = Ok a -> is_adt m = true)
    by (intros a; unfold Adt.from_hl7; destruct (is_adt m); [reflexivity|discriminate]).
  assert (Horu : forall o, Oru.from_hl7 m = Ok o -> is_oru m = true)
    by (intros o; unfold Oru.from_hl7; destruct (is_oru m); [reflexivity|discriminate]).
  assert (Hrde : forall r, Rde.from_hl7 m = Ok r -> is_rde m = true)
    by (intros r; unfold Rde.from_hl7; destruct (is_rde m); [reflexivity|discriminate]).
  assert (Nadt : is_adt m = false -> Adt.from_hl7 m = Err (InvalidStructure "Not an ADT message"))
    by (intros E; unfold Adt.from_hl7; rewrite E; reflexivity).
  assert (Noru : is_oru m = false -> Oru.from_hl7 m = Err (InvalidStructure "Not an ORU message"))
    by (intros E; unfold Oru.from_hl7; rewrite E; reflexivity).
  assert (Nrde : is_rde m = false -> Rde.from_hl7 m = Err (InvalidStructure "Not an RDE message"))
    by (intros E; unfold Rde.from_hl7; rewrite E; reflexivity).
  assert (Ex : forall p q (a b : ascii), a <> b ->
                 starts_with (message_type m) (String a p) = true ->
                 starts_with (message_type m) (String b q) = false).
  { intros p q a b Hab Ha. destruct (starts_with (message_type m) (String b q)) eqn:Hb; [|reflexivity].
    exfalso. apply Hab. exact (prefix_first_char _ _ _ _ _ Ha Hb). }
  unfold is_adt, is_oru, is_rde in *.
  split; [|split].
  - intros [a Ha]. apply Hadt in Ha. split; [apply Noru|apply Nrde]; (eapply Ex; [|exact Ha]; discriminate).
  - intros [o Ho]. apply Horu in Ho. split; [apply Nadt|apply Nrde]; (eapply Ex; [|exact Ho]; discriminate).
  - intros [r Hr]. apply Hrde in Hr. split; [apply Nadt|apply Noru]; (eapply Ex; [|exact Hr]; discriminate).
Qed.

(** In every order of [RdeMessage::from_hl7], dosage and quantity are the
    same value (both read RXE.10), and the route is RXR.3 of the RXR segment
    with the same index as the order, [None] when there are fewer RXR
    segments than orders. *)
Theorem rde_dosage_route m r :
  Rde.from_hl7 m = Ok r ->
  forall i o, nth_error (Rde.medication_orders r) i = Some o ->
    Rde.dosage o = Rde.quantity o /\
    Rde.route o = match nth_error (get_segments m "RXR") i with
                  | Some rxr => field_first_value rxr 2
                  | None => None
                  end.
Proof.
  intros H i o Ho. rewrite (RdeClaims.from_hl7_orders m r H) in Ho.
  rewrite RdeClaims.medication_orders_from_nth in Ho.
  destruct (nth_error (get_segments m "RXE") i) as [rxe|]; [|discriminate].
  injection Ho as <-. split; reflexivity.
Qed.

(** Witness: the repository's RDE test message. *)
Lemma rde_dosage_route_witness :
  match Rde.from_hl7 Samples.rde_test_msg with
  | Ok r =>
      forall i o, nth_error (Rde.medication_orders r) i = Some o ->
        Rde.dosage o = Rde.quantity o /\
        Rde.route o = match nth_error (get_segments Samples.rde_test_msg "RXR") i with
                      | Some rxr => field_first_value rxr 2
                      | None => None
                      end
  | _ => False
  end.
Proof.
  pose proof (rde_dosage_route Samples.rde_test_msg) as H.
  destruct (Rde.from_hl7 Samples.rde_test_msg) as [r| |] eqn:E.
  - exact (H r eq_refl).
  - vm_compute in E. discriminate.
  - vm_compute in E. discriminate.
Defined.

End TypedExtras.

(** ** Further facts about the MLLP decoder *)
Module MllpMoreFacts.
Import Byte Mllp Frames MllpFacts.

Lemma position_noise noise l :
  ~ In MLLP_START_BLOCK noise ->
  position (fun b => Byte.eqb b MLLP_START_BLOCK) (noise ++ MLLP_START_BLOCK :: l)
  = Some (List.length noise).
Proof.
  induction noise as [|x noise IH]; intros Hn; [reflexivity|].
  cbn [app position]. destruct (Byte.eqb x MLLP_START_BLOCK) eqn:E.
  - apply byte_dec_bl in E. subst x. exfalso. apply Hn. left. reflexivity.
  - rewrite IH; [reflexivity|]. intros H. apply Hn. right. exact H.
Qed.

Lemma position_none l :
  ~ In MLLP_START_BLOCK l -> position (fun b => Byte.eqb b MLLP_START_BLOCK) l = None.
Proof.
  induction l as [|x l IH]; intros Hn; [reflexivity|].
  cbn [position]. destruct (Byte.eqb x MLLP_START_BLOCK) eqn:E.
  - apply byte_dec_bl in E. subst x. exfalso. apply Hn. left. reflexivity.
  - rewrite IH; [reflexivity|]. intros H. apply Hn. right. exact H.
Qed.

Lemma no_frame_buffer src : snd (no_frame src) = src.
Proof. unfold no_frame. destruct (100000 <? _)%N; reflexivity. Qed.

(** A buffer that starts with the start block and holds FS CR yields the
    bytes between them. *)
Lemma extract_frame_start post e :
  end_position (MLLP_START_BLOCK :: post) = Some e ->
  exists p rest, MLLP_START_BLOCK :: post =
                 MLLP_START_BLOCK :: p ++ MLLP_END_BLOCK :: MLLP_CARRIAGE_RETURN :: rest /\
                 extract_frame (MLLP_START_BLOCK :: post) e = (Ok (Some p), rest).
Proof.
  intros H. destruct (end_position_some _ _ H) as (a & b & Hl & Ha & Hc).
  destruct a as [|x p].
  - discriminate Hl.
  - injection Hl as <- Hpost. subst post e. exists p, b. split; [reflexivity|].
    apply extract_frame_ok.
Qed.

(** After noise without a start block, a complete frame is returned and
    the bytes that follow it are kept. *)
Lemma decode_noise_frame noise p rest :
  ~ In MLLP_START_BLOCK noise -> contains_fs_cr p = false ->
  decode (noise ++ MLLP_START_BLOCK :: p ++ MLLP_END_BLOCK :: MLLP_CARRIAGE_RETURN :: rest)
  = (Ok (Some p), rest).
Proof.
  intros Hn Hp. rewrite decode_unfold, position_noise by exact Hn.
  rewrite skipn_at_start, end_position_frame by exact Hp. apply extract_frame_ok.
Qed.

End MllpMoreFacts.

(** ** Properties of the MLLP decoder and framing *)
Module MllpExtras.
Import Byte Mllp Frames MllpFacts MllpMoreFacts.

(** [MllpCodec::decode] never panics: none of its [split_to] calls and
    its [len() - 2] goes out of range. Its only error is the buffer-size
    error. *)
Theorem decode_no_panic src :
  match fst (decode src) with
  | Ok _ => True
  | Err e => e = InvalidFrame "Buffer exceeds maximum size without valid frame"
  | Panic => False
  end.
Proof.
  rewrite decode_unfold.
  assert (Hnf : forall l, match fst (no_frame l) with
                          | Ok _ => True
                          | Err e => e = InvalidFrame "Buffer exceeds maximum size without valid frame"
                          | Panic => False
                          end)
    by (intros l; unfold no_frame; destruct (100000 <? _)%N; reflexivity).
  destruct (position _ src) as [k|] eqn:E; [|apply Hnf].
  destruct (position_start src k E) as (pre & post & -> & <- & _).
  rewrite skipn_at_start.
  destruct (end_position (MLLP_START_BLOCK :: post)) as [e|] eqn:E2; [|apply Hnf].
  destruct (extract_frame_start post e E2) as (p & rest & _ & ->). exact I.
Qed.

(** After bytes holding no start block, a complete frame is decoded into
    its payload and everything after its FS CR, further frames included,
    is kept in the buffer for the next call. *)
Theorem decode_frame_after_noise noise p rest :
  ~ In MLLP_START_BLOCK noise -> contains_fs_cr p = false ->
  decode (noise ++ MLLP_START_BLOCK :: p ++ MLLP_END_BLOCK :: MLLP_CARRIAGE_RETURN :: rest)
  = (Ok (Some p), rest).
Proof. apply decode_noise_frame. Qed.

(** Witness: noise [x41], payload [x42], a second frame after it. *)
Lemma decode_frame_after_noise_witness :
  decode ([x41] ++ MLLP_START_BLOCK :: [x42] ++ MLLP_END_BLOCK :: MLLP_CARRIAGE_RETURN ::
          [MLLP_START_BLOCK; x43; MLLP_END_BLOCK; MLLP_CARRIAGE_RETURN])
  = (Ok (Some [x42]), [MLLP_START_BLOCK; x43; MLLP_END_BLOCK; MLLP_CARRIAGE_RETURN]).
Proof.
  apply decode_frame_after_noise.
  - simpl. intros [H|[]]. discriminate H.
  - reflexivity.
Defined.

(** When [decode] answers "more data needed", the bytes it dropped make
    no difference: decoding what it kept, followed by any new data, gives
    the same result as decoding the original buffer followed by that data. *)
Theorem decode_more_data_keeps_state src kept more :
  decode src = (Ok None, kept) -> decode (kept ++ more) = decode (src ++ more).
Proof.
  intros H. rewrite decode_unfold in H.
  destruct (position _ src) as [k|] eqn:E.
  - destruct (position_start src k E) as (pre & post & -> & <- & Hn).
    rewrite skipn_at_start in H.
    destruct (end_position (MLLP_START_BLOCK :: post)) as [e|] eqn:E2.
    + destruct (extract_frame_start post e E2) as (p & rest & _ & Hx). congruence.
    + assert (Hk : kept = MLLP_START_BLOCK :: post)
        by (rewrite <- (no_frame_buffer (MLLP_START_BLOCK :: post)), H; reflexivity).
      subst kept. rewrite <- app_assoc. cbn [app].
      rewrite (decode_unfold (pre ++ _)), (decode_unfold (MLLP_START_BLOCK :: _)).
      rewrite position_noise by exact Hn. rewrite skipn_at_start. reflexivity.
  - assert (Hk : kept = src) by (rewrite <- (no_frame_buffer src), H; reflexivity).
    subst kept. reflexivity.
Qed.

(** Witness: noise, then an unfinished frame. *)
Lemma decode_more_data_keeps_state_witness :
  decode [x41; MLLP_START_BLOCK; x42] = (Ok None, [MLLP_START_BLOCK; x42]) /\
  decode ([MLLP_START_BLOCK; x42] ++ [MLLP_END_BLOCK; MLLP_CARRIAGE_RETURN])
  = decode ([x41; MLLP_START_BLOCK; x42] ++ [MLLP_END_BLOCK; MLLP_CARRIAGE_RETURN]).
Proof.
  split; [vm_compute; reflexivity|].
  apply decode_more_data_keeps_state. vm_compute. reflexivity.
Defined.



End MllpExtras.

(** ** Facts about one pass of the connection loop *)
Module ServerFacts.
Import Byte Str Hl7 Mllp Frames Server MllpMoreFacts.

Lemma extract_is_decode buf : extract_mllp_message buf = decode buf.
Proof. reflexivity. Qed.

Lemma decode_frame p rest :
  contains_fs_cr p = false ->
  decode (MLLP_START_BLOCK :: p ++ MLLP_END_BLOCK :: MLLP_CARRIAGE_RETURN :: rest)
  = (Ok (Some p), rest).
Proof. intros H. apply (decode_noise_frame [] p rest); [intros []|exact H]. Qed.

Lemma wrap_in_mllp_cons s :
  wrap_in_mllp s
  = MLLP_START_BLOCK :: String.list_byte_of_string s ++ MLLP_END_BLOCK :: MLLP_CARRIAGE_RETURN :: [].
Proof. reflexivity. Qed.

Ltac destruct_matches :=
  repeat match goal with
         | |- context [match ?x with _ => _ end] => destruct x
         end.

(** What a pass does with a complete frame does not depend on the bytes
    after it, and those bytes are kept. *)
Lemma on_read_frame h now p :
  contains_fs_cr p = false ->
  exists o, forall rest,
    on_read h now (MLLP_START_BLOCK :: p ++ MLLP_END_BLOCK :: MLLP_CARRIAGE_RETURN :: rest) = (o, rest).
Proof.
  intros Hp.
  exists (fst (on_read h now (MLLP_START_BLOCK :: p ++ MLLP_END_BLOCK :: MLLP_CARRIAGE_RETURN :: []))).
  intros rest. unfold on_read, send_nack, Ack.generate_nack, generate_response.
  rewrite !extract_is_decode, !decode_frame by exact Hp. cbn beta iota zeta.
  destruct_matches; reflexivity.
Qed.


Lemma parse_non_msh s :
  starts_with s "MSH" = false -> parse s = Err (InvalidStructure "First segment must be MSH").
Proof.
  intros H. rewrite ParserMoreFacts.parse_eq, ParserMoreFacts.split_segments_msh, H. reflexivity.
Qed.

End ServerFacts.

(** ** Properties of the connection handling *)
Module ServerExtras.
Import Byte Str Hl7 Mllp Frames Server MllpMoreFacts ServerFacts.
Local Open Scope string_scope.


(** When one read delivers a frame and then a second one, and the peer
    then closes, only the first message is answered: the loop takes one
    frame per read and the second stays in the buffer. *)
Theorem second_message_same_read_unanswered h now a b :
  contains_fs_cr (String.list_byte_of_string a) = false ->
  handle_connection h [((wrap_in_mllp a ++ wrap_in_mllp b)%list, now)] []
  = handle_connection h [(wrap_in_mllp a, now)] [].
Proof.
  intros Ha. destruct (on_read_frame h now _ Ha) as [o Ho].
  rewrite !wrap_in_mllp_cons. cbn [handle_connection app].
  rewrite <- app_assoc. cbn [app]. rewrite !Ho.
  destruct o as [ws| |]; cbn; [rewrite !app_nil_r|..]; reflexivity.
Qed.

(** Witness: two ADT messages sent back to back in one read. *)
Lemma second_message_same_read_unanswered_witness :
  handle_connection (fun m => Ok m)
    [((wrap_in_mllp Samples.adt_a04 ++ wrap_in_mllp Samples.oru_demo)%list, "20250101120000")] []
  = handle_connection (fun m => Ok m) [(wrap_in_mllp Samples.adt_a04, "20250101120000")] [].
Proof. apply second_message_same_read_unanswered. vm_compute. reflexivity. Defined.

(** A framed UTF-8 text that does not start with MSH is answered with
    one NACK frame, whose control id is taken from the text and whose
    error is the parse error of [Message::parse]. *)
Theorem non_msh_payload_gets_nack h now s :
  contains_fs_cr (String.list_byte_of_string s) = false ->
  utf8_valid (String.list_byte_of_string s) = true ->
  starts_with s "MSH" = false ->
  handle_connection h [(wrap_in_mllp s, now)] []
  = (Ok tt,
     [wrap_in_mllp
        ("MSH|^~\&|RECEIVING_APP|RECEIVING_FACILITY|SENDING_APP|SENDING_FACILITY|"
         ++ now ++ "||ACK|" ++ Ack.nack_control_id s ++ "|P|2.5" ++ CRLF
         ++ "MSA|AE|" ++ Ack.nack_control_id s
         ++ "|Error processing message: Invalid message structure: First segment must be MSH")]).
Proof.
  intros Hc Hu Hm. rewrite (wrap_in_mllp_cons s) at 1. cbn [handle_connection app].
  unfold on_read. rewrite extract_is_decode, decode_frame by exact Hc.
  cbn beta iota zeta. rewrite Hu. cbn [negb].
  rewrite String.string_of_list_byte_of_string, parse_non_msh by exact Hm.
  reflexivity.
Qed.

(** Witness: a PID line sent on its own. *)
Lemma non_msh_payload_gets_nack_witness :
  handle_connection (fun m => Ok m) [(wrap_in_mllp "PID|1||12345", "20250101120000")] []
  = (Ok tt,
     [wrap_in_mllp
        ("MSH|^~\&|RECEIVING_APP|RECEIVING_FACILITY|SENDING_APP|SENDING_FACILITY|"
         ++ "20250101120000" ++ "||ACK|" ++ Ack.nack_control_id "PID|1||12345" ++ "|P|2.5" ++ CRLF
         ++ "MSA|AE|" ++ Ack.nack_control_id "PID|1||12345"
         ++ "|Error processing message: Invalid message structure: First segment must be MSH")]).
Proof. apply non_msh_payload_gets_nack; vm_compute; reflexivity. Defined.

(** A framed message that parses is answered with one frame: when the
    handler accepts it, the AA acknowledgment with the fixed control id
    MSG00001 (not the message's own); when the handler fails, a NACK
    carrying the message's control id and the handler's error text. *)
Theorem parsed_payload_reply h now s m :
  contains_fs_cr (String.list_byte_of_string s) = false ->
  utf8_valid (String.list_byte_of_string s) = true ->
  parse s = Ok m ->
  (forall r, h m = Ok r ->
     handle_connection h [(wrap_in_mllp s, now)] []
     = (Ok tt,
        [wrap_in_mllp
           ("MSH|^~\&|RECEIVING_APP|RECEIVING_FACILITY|SENDING_APP|SENDING_FACILITY|"
            ++ now ++ "||ACK|MSG00001|P|2.5" ++ CRLF
            ++ "MSA|AA|MSG00001|Message processed successfully")])) /\
  (forall e, h m = Err e ->
     handle_connection h [(wrap_in_mllp s, now)] []
     = (Ok tt,
        [wrap_in_mllp
           ("MSH|^~\&|RECEIVING_APP|RECEIVING_FACILITY|SENDING_APP|SENDING_FACILITY|"
            ++ now ++ "||ACK|" ++ Ack.nack_control_id s ++ "|P|2.5" ++ CRLF
            ++ "MSA|AE|" ++ Ack.nack_control_id s
            ++ "|Error processing message: " ++ hl7_error_to_string e)])).
Proof.
  intros Hc Hu Hp. rewrite (wrap_in_mllp_cons s). cbn [handle_connection app].
  unfold on_read. rewrite extract_is_decode, decode_frame by exact Hc.
  cbn beta iota zeta. rewrite Hu. cbn [negb].
  rewrite String.string_of_list_byte_of_string, Hp.
  split; intros x Hx; rewrite Hx; reflexivity.
Qed.

(** Witness: the sample ADT message, with a handler that accepts it and
    one that rejects it. *)
Lemma parsed_payload_reply_witness :
  match parse Samples.adt_a04 with
  | Ok m =>
      handle_connection (fun m => Ok m) [(wrap_in_mllp Samples.adt_a04, "20250101120000")] []
      = (Ok tt,
         [wrap_in_mllp
            ("MSH|^~\&|RECEIVING_APP|RECEIVING_FACILITY|SENDING_APP|SENDING_FACILITY|"
             ++ "20250101120000" ++ "||ACK|MSG00001|P|2.5" ++ CRLF
             ++ "MSA|AA|MSG00001|Message processed successfully")]) /\
      handle_connection (fun m => Err (MissingField "X")) [(wrap_in_mllp Samples.adt_a04, "20250101120000")] []
      = (Ok tt,
         [wrap_in_mllp
            ("MSH|^~\&|RECEIVING_APP|RECEIVING_FACILITY|SENDING_APP|SENDING_FACILITY|"
             ++ "20250101120000" ++ "||ACK|" ++ Ack.nack_control_id Samples.adt_a04 ++ "|P|2.5" ++ CRLF
             ++ "MSA|AE|" ++ Ack.nack_control_id Samples.adt_a04
             ++ "|Error processing message: " ++ hl7_error_to_string (MissingField "X"))])
  | _ => False
  end.
Proof.
  destruct (parse Samples.adt_a04) as [m| |] eqn:E; [|vm_compute in E; discriminate..].
  assert (Hc : contains_fs_cr (String.list_byte_of_string Samples.adt_a04) = false)
    by (vm_compute; reflexivity).
  assert (Hu : utf8_valid (String.list_byte_of_string Samples.adt_a04) = true)
    by (vm_compute; reflexivity).
  split.
  - apply (proj1 (parsed_payload_reply (fun m => Ok m) "20250101120000" Samples.adt_a04 m Hc Hu E) m).
    reflexivity.
  - apply (proj2 (parsed_payload_reply (fun m => Err (MissingField "X")) "20250101120000"
                    Samples.adt_a04 m Hc Hu E) (MissingField "X")).
    reflexivity.
Defined.

(** A frame whose payload is not valid UTF-8 is dropped without an
    answer; the bytes after it are kept. *)
Theorem non_utf8_payload_dropped h now p rest :
  contains_fs_cr p = false -> utf8_valid p = false ->
  on_read h now (MLLP_START_BLOCK :: p ++ MLLP_END_BLOCK :: MLLP_CARRIAGE_RETURN :: rest)
  = (Ok [], rest).
Proof.
  intros Hc Hu. unfold on_read. rewrite extract_is_decode, decode_frame by exact Hc.
  cbn beta iota zeta. rewrite Hu. reflexivity.
Qed.

(** Witness: a lone continuation byte. *)
Lemma non_utf8_payload_dropped_witness :
  on_read (fun m => Ok m) "20250101120000"
    (MLLP_START_BLOCK :: [xff] ++ MLLP_END_BLOCK :: MLLP_CARRIAGE_RETURN :: [x41]) = (Ok [], [x41]).
Proof. apply non_utf8_payload_dropped; vm_compute; reflexivity. Defined.

(** Once the buffer holds more than 100000 bytes and no start block, the
    read ends the connection with the buffer-size error, and nothing more
    is written. *)
Theorem oversized_buffer_ends_connection h chunk now rest buf :
  chunk <> [] ->
  ~ In MLLP_START_BLOCK (buf ++ chunk)%list ->
  (100000 < N.of_nat (List.length (buf ++ chunk)%list))%N ->
  handle_connection h ((chunk, now) :: rest) buf
  = (Err (InvalidFrame "Buffer exceeds maximum size without valid frame"), []).
Proof.
  intros Hne Hn Hl. destruct chunk as [|c cs]; [congruence|]. cbn [handle_connection].
  unfold on_read. rewrite extract_is_decode, MllpFacts.decode_unfold, position_none by exact Hn.
  unfold no_frame.
  replace (100000 <? N.of_nat (List.length (buf ++ c :: cs)))%N with true
    by (symmetry; apply N.ltb_lt; exact Hl).
  reflexivity.
Qed.

(** Witness: 100001 zero bytes in one read. *)
Lemma oversized_buffer_ends_connection_witness :
  handle_connection (fun m => Ok m) [(repeat x00 (N.to_nat 100001), "20250101120000")] []
  = (Err (InvalidFrame "Buffer exceeds maximum size without valid frame"), []).
Proof.
  apply oversized_buffer_ends_connection.
  - assert (E : Nat.eqb (N.to_nat 100001) 0 = false) by (vm_compute; reflexivity).
    destruct (N.to_nat 100001); [cbn in E; discriminate E|cbn; discriminate].
  - cbn [app]. intros H. apply repeat_spec in H. discriminate H.
  - cbn [app]. rewrite repeat_length, N2Nat.id. vm_compute. reflexivity.
Defined.

End ServerExtras.

(** ** The header values of a parsed message *)
Module HeaderExtras.
Import Str Hl7.
Local Open Scope string_scope.



End HeaderExtras.
